(** * unit-converter: the template engine, the converter service and the
      request history of [server.py]

    The Python program is embedded function by function.  A Python [str] is
    the Rocq string of its UTF-8 bytes: concatenation, [startswith],
    [replace] and the search for an ASCII literal act on the bytes as they act
    on the text, and [\w] reads the characters beyond ASCII through a table
    that the development takes as given.  A Python [int] is [Z], a [float]
    in a context is the kernel's binary64 [float], a [dict] is an association
    list in insertion order, and a call that can raise returns a [result]. *)

From Stdlib Require Import String Ascii List Bool Arith ZArith QArith Lia.
From Stdlib Require Import PrimFloat Floats DecimalString Qpower Lqa Permutation.
Import ListNotations.

Local Close Scope Q_scope.
Local Open Scope nat_scope.
Local Open Scope list_scope.
Local Open Scope string_scope.

(** ** Exceptions *)

Inductive exn : Type :=
  | KeyError
  | TypeError
  | AttributeError
  | OSError.

Inductive result (A : Type) : Type :=
  | Ret (a : A)
  | Raise (e : exn).

Arguments Ret {A} a.
Arguments Raise {A} e.

Definition bind {A B : Type} (r : result A) (k : A -> result B) : result B :=
  match r with
  | Ret a => k a
  | Raise e => Raise e
  end.

Notation "x <- r ;; k" := (bind r (fun x => k))
  (at level 61, r at next level, right associativity).

(** ** Python's string builtins *)

Module Str.

Fixpoint drop (n : nat) (s : string) : string :=
  match n, s with
  | O, _ => s
  | S _, EmptyString => EmptyString
  | S k, String _ t => drop k t
  end.

(** [s.startswith(p)] is [String.prefix p s]. *)

(** [old] is not empty: the scan of [s.replace(old, new)], left to right,
    over occurrences that do not overlap.  [skip] counts the characters of
    the occurrence just replaced that are still to be passed. *)
Fixpoint replace_from (old new : string) (skip : nat) (s : string) : string :=
  match s with
  | EmptyString => EmptyString
  | String c t =>
      match skip with
      | S k => replace_from old new k t
      | O =>
          if prefix old s
          then new ++ replace_from old new (String.length old - 1) t
          else String c (replace_from old new 0 t)
      end
  end.

(** With an empty [old], Python puts [new] before every character and at
    the end. *)
Fixpoint interleave (new s : string) : string :=
  match s with
  | EmptyString => new
  | String c t => new ++ String c (interleave new t)
  end.

Definition replace (old new s : string) : string :=
  match old with
  | EmptyString => interleave new s
  | String _ _ => replace_from old new 0 s
  end.

(** The text before and after the first occurrence of [pat] in [s]. *)
Fixpoint split_on (pat s : string) : option (string * string) :=
  if prefix pat s then Some (EmptyString, drop (String.length pat) s)
  else
    match s with
    | EmptyString => None
    | String c t =>
        match split_on pat t with
        | Some (before, after) => Some (String c before, after)
        | None => None
        end
    end.

Definition strip_prefix (pat s : string) : option string :=
  if prefix pat s then Some (drop (String.length pat) s) else None.

(** [s.rstrip(c)] for a single character [c]. *)
Fixpoint rstrip (c : ascii) (s : string) : string :=
  match s with
  | EmptyString => EmptyString
  | String a t =>
      match rstrip c t with
      | EmptyString => if Ascii.eqb a c then EmptyString else String a EmptyString
      | r => String a r
      end
  end.

(** [str(n)] for an [int]. *)
Definition of_Z (n : Z) : string := NilZero.string_of_int (Z.to_int n).

(** Whether the character [c] occurs in [s]. *)
Fixpoint has_char (c : ascii) (s : string) : bool :=
  match s with
  | EmptyString => false
  | String a t => Ascii.eqb a c || has_char c t
  end.

End Str.

(** ** The regular expressions of [TemplateEngine.render] *)

Module Re.

(** [\w] on ASCII: a digit, a letter or the underscore. *)
Definition is_word (c : ascii) : bool :=
  let n := N_of_ascii c in
  ((48 <=? n) && (n <=? 57) || (65 <=? n) && (n <=? 90) || (n =? 95)
   || (97 <=? n) && (n <=? 122))%N.

Definition is_ascii (c : ascii) : bool := (N_of_ascii c <? 128)%N.

Section Word.

(** [\w] beyond ASCII is [ch.isalnum()] on the Unicode tables, which the
    source does not contain: [uni_word s] is the number of bytes of the word
    character that starts the text [s], 0 when [s] does not start with
    one.  It is asked only where a byte beyond ASCII stands. *)
Variable uni_word : string -> nat.

(** The longest run of [\w] at the head of [s], and what follows it; [skip]
    counts the bytes still to take of a character beyond ASCII. *)
Fixpoint take_word_from (skip : nat) (s : string) : string * string :=
  match s with
  | EmptyString => (EmptyString, EmptyString)
  | String c t =>
      match skip with
      | S k => let (w, rest) := take_word_from k t in (String c w, rest)
      | O =>
          if is_word c
          then let (w, rest) := take_word_from 0 t in (String c w, rest)
          else if is_ascii c then (EmptyString, s)
          else
            match uni_word s with
            | O => (EmptyString, s)
            | S k => let (w, rest) := take_word_from k t in (String c w, rest)
            end
      end
  end.

Definition take_word (s : string) : string * string := take_word_from 0 s.

(** [\w+] followed by the literal [close]; [close] starts with a character
    outside [\w], so the greedy run is the only candidate. *)
Definition name_then (close s : string) : option (string * string) :=
  let (w, rest) := take_word s in
  match w with
  | EmptyString => None
  | String _ _ =>
      match Str.strip_prefix close rest with
      | Some rest' => Some (w, rest')
      | None => None
      end
  end.

End Word.

(** [pattern.sub(repl, s)] for a pattern that matches no empty string:
    [try_match] gives the groups and the length of the match that starts at
    the head of its argument, the matches are taken left to right without
    overlap, and [repl] (a Python function) may raise. *)
Section Sub.
Context {G : Type}.
Variable try_match : string -> option (G * nat).
Variable repl : G -> result string.

Fixpoint sub_from (skip : nat) (s : string) : result string :=
  match s with
  | EmptyString => Ret EmptyString
  | String c t =>
      match skip with
      | S k => sub_from k t
      | O =>
          match try_match s with
          | Some (g, len) =>
              out <- repl g ;;
              rest <- sub_from (len - 1) t ;;
              Ret (out ++ rest)
          | None =>
              rest <- sub_from 0 t ;;
              Ret (String c rest)
          end
      end
  end.

Definition sub (s : string) : result string := sub_from 0 s.
End Sub.

(** [\{% for item in (\w+) %\}(.*?)\{% else %\}(.*?)\{% endfor %\}] with
    [re.DOTALL], tried at the head of [s]: the three groups and the length
    of the match.  Each lazy [.*?] stops at the first occurrence of the
    literal that follows it; a later [{% else %}] cannot help, because
    what follows it is a suffix of what followed the first one. *)
Definition loop_pattern (uni_word : string -> nat) (s : string)
  : option ((string * string * string) * nat) :=
  match Str.strip_prefix "{% for item in " s with
  | None => None
  | Some s1 =>
      match name_then uni_word " %}" s1 with
      | None => None
      | Some (list_name, s2) =>
          match Str.split_on "{% else %}" s2 with
          | None => None
          | Some (loop_body, s3) =>
              match Str.split_on "{% endfor %}" s3 with
              | None => None
              | Some (else_body, s4) =>
                  Some ((list_name, loop_body, else_body), String.length s - String.length s4)
              end
          end
      end
  end.

(** [\{% if (\w+) %\}(.*?)\{% endif %\}] with [re.DOTALL]. *)
Definition if_pattern (uni_word : string -> nat) (s : string)
  : option ((string * string) * nat) :=
  match Str.strip_prefix "{% if " s with
  | None => None
  | Some s1 =>
      match name_then uni_word " %}" s1 with
      | None => None
      | Some (var_name, s2) =>
          match Str.split_on "{% endif %}" s2 with
          | None => None
          | Some (inner_content, s3) =>
              Some ((var_name, inner_content), String.length s - String.length s3)
          end
      end
  end.

End Re.

(** ** The context of a render call *)

(** The values the spec's data model puts in a context: a string, a number,
    a boolean, or a sequence of records whose fields are such scalars. *)
Inductive scalar : Type :=
  | SStr (s : string)
  | SInt (z : Z)
  | SFloat (f : float)
  | SBool (b : bool).

Definition record : Type := list (string * scalar).

Inductive value : Type :=
  | VScalar (x : scalar)
  | VList (items : list record).

Definition context : Type := list (string * value).

(** [d.get(key)]: [None] when the key is absent. *)
Fixpoint get {V : Type} (d : list (string * V)) (key : string) : option V :=
  match d with
  | [] => None
  | (k, v) :: d' => if String.eqb k key then Some v else get d' key
  end.

(** Python's truth value. *)
Definition truthy_scalar (x : scalar) : bool :=
  match x with
  | SStr s => negb (String.eqb s "")
  | SInt z => negb (Z.eqb z 0)
  | SFloat f => negb (PrimFloat.eqb f 0%float)
  | SBool b => b
  end.

Definition truthy (v : value) : bool :=
  match v with
  | VScalar x => truthy_scalar x
  | VList items => match items with [] => false | _ :: _ => true end
  end.

(** [isinstance(value, (str, int, float))]; [bool] is a subclass of [int]. *)
Definition is_str_int_float (v : value) : bool :=
  match v with
  | VScalar (SStr _) | VScalar (SInt _) | VScalar (SFloat _) => true
  | VScalar (SBool _) => true
  | VList _ => false
  end.

(** The file a [TemplateEngine] was built for, as [render] finds it. *)
Inductive template_file : Type :=
  | Missing
  | Unreadable
  | Readable (content : string).

Module TemplateEngine.
Section Engine.

(** The table of [\w] beyond ASCII, see [Re.take_word_from]. *)
Variable uni_word : string -> nat.

(** [str(x)] of a [float] is a builtin that the source does not contain. *)
Variable repr_float : float -> string.

Definition str (x : scalar) : string :=
  match x with
  | SStr s => s
  | SInt z => Str.of_Z z
  | SFloat f => repr_float f
  | SBool true => "True"
  | SBool false => "False"
  end.

Definition item_marker (key : string) : string := "{{ item." ++ key ++ " }}".
Definition marker (key : string) : string := "{{ " ++ key ++ " }}".

(** The inner loop of [loop_replacer]: one item's copy of the body. *)
Definition render_item (loop_body : string) (item : record) : string :=
  fold_left
    (fun temp (kv : string * scalar) =>
       Str.replace (item_marker (fst kv)) (str (snd kv)) temp)
    item loop_body.

Definition loop_replacer (ctx : context)
  (groups : string * string * string) : result string :=
  let '(list_name, loop_body, else_body) := groups in
  match get ctx list_name with
  | None => Ret else_body
  | Some items =>
      if negb (truthy items) then Ret else_body
      else
        match items with
        | VList l =>
            Ret (fold_left
                   (fun result_html item => render_item loop_body item ++ result_html)
                   l EmptyString)
        | VScalar (SStr _) => Raise AttributeError
        | VScalar _ => Raise TypeError
        end
  end.

Definition if_replacer (ctx : context) (groups : string * string) : result string :=
  let '(var_name, inner_content) := groups in
  match get ctx var_name with
  | Some v => if truthy v then Ret inner_content else Ret EmptyString
  | None => Ret EmptyString
  end.

Definition loop_stage (ctx : context) (content : string) : result string :=
  Re.sub (Re.loop_pattern uni_word) (loop_replacer ctx) content.

Definition if_stage (ctx : context) (content : string) : result string :=
  Re.sub (Re.if_pattern uni_word) (if_replacer ctx) content.

Definition scalar_stage (ctx : context) (content : string) : string :=
  fold_left
    (fun content (kv : string * value) =>
       match snd kv with
       | VScalar x =>
           if is_str_int_float (snd kv)
           then Str.replace (marker (fst kv)) (str x) content
           else content
       | VList _ => content
       end)
    ctx content.

Definition error_fragment : string := "<h1>Error: Template file not found.</h1>".

Definition render (file : template_file) (ctx : context) : result string :=
  match file with
  | Missing => Ret error_fragment
  | Unreadable => Raise OSError
  | Readable content =>
      content1 <- loop_stage ctx content ;;
      content2 <- if_stage ctx content1 ;;
      Ret (scalar_stage ctx content2)
  end.

End Engine.
End TemplateEngine.

(** ** Numbers of the converter *)

(** [ConverterService] computes on Python floats.  Its code is written once
    over the operations it uses and read at two number types: the rationals,
    where the arithmetic is exact, and binary64. *)
Class Arith (A : Type) : Type := {
  of_Z : Z -> A;
  add : A -> A -> A;
  sub : A -> A -> A;
  mul : A -> A -> A;
  div : A -> A -> A
}.

(** The decimal literal [m * 10^-e].  Both [m] and [10^e] are small integers,
    so on binary64 the quotient is the literal correctly rounded. *)
Definition lit {A : Type} `{Arith A} (m : Z) (e : nat) : A :=
  div (of_Z m) (of_Z (10 ^ Z.of_nat e)).

#[export] Instance Q_Arith : Arith Q := {
  of_Z := inject_Z;
  add := Qplus;
  sub := Qminus;
  mul := Qmult;
  div := Qdiv
}.

(** Exact for the integers below 2^53, which covers the source's literals. *)
Fixpoint float_of_pos (p : positive) : float :=
  match p with
  | xH => 1%float
  | xO q => (2 * float_of_pos q)%float
  | xI q => (2 * float_of_pos q + 1)%float
  end.

Definition float_of_Z (z : Z) : float :=
  match z with
  | Z0 => 0%float
  | Zpos p => float_of_pos p
  | Zneg p => (- float_of_pos p)%float
  end.

#[export] Instance float_Arith : Arith float := {
  of_Z := float_of_Z;
  add := PrimFloat.add;
  sub := PrimFloat.sub;
  mul := PrimFloat.mul;
  div := PrimFloat.div
}.

(** ** [UNITS_CONFIG] *)

Record unit_cfg (A : Type) : Type := {
  name : string;
  factor : option A
}.

Arguments name {A} _.
Arguments factor {A} _.

Record category_cfg (A : Type) : Type := {
  label : string;
  units : list (string * unit_cfg A)
}.

Arguments label {A} _.
Arguments units {A} _.

Section Config.
Context {A : Type} `{Arith A}.

Definition linear (n : string) (f : A) : unit_cfg A :=
  {| name := n; factor := Some f |}.

Definition plain (n : string) : unit_cfg A :=
  {| name := n; factor := None |}.

Definition UNITS_CONFIG : list (string * category_cfg A) :=
  [ ("length",
     {| label := "Длина";
        units :=
          [ ("km", linear "Километры" (lit 1000 0));
            ("m", linear "Метры" (lit 1 0));
            ("cm", linear "Сантиметры" (lit 1 2));
            ("mm", linear "Миллиметры" (lit 1 3));
            ("miles", linear "Мили" (lit 160934 2));
            ("yards", linear "Ярды" (lit 9144 4));
            ("feet", linear "Футы" (lit 3048 4));
            ("inches", linear "Дюймы" (lit 254 4)) ] |});
    ("weight",
     {| label := "Вес";
        units :=
          [ ("kg", linear "Килограммы" (lit 1 0));
            ("g", linear "Граммы" (lit 1 3));
            ("mg", linear "Миллиграммы" (lit 1 6));
            ("pounds", linear "Фунты" (lit 453592 6));
            ("ounces", linear "Унции" (lit 283495 7)) ] |});
    ("temperature",
     {| label := "Температура";
        units :=
          [ ("c", plain "Цельсий");
            ("f", plain "Фаренгейт");
            ("k", plain "Кельвин") ] |});
    ("volume",
     {| label := "Объем";
        units :=
          [ ("liters", linear "Литры" (lit 1 0));
            ("ml", linear "Миллилитры" (lit 1 3));
            ("gallons", linear "Галлоны" (lit 378541 5)) ] |}) ].

(** [d[key]]: raises [KeyError] when the key is absent. *)
Definition item {V : Type} (d : list (string * V)) (key : string) : result V :=
  match get d key with
  | Some v => Ret v
  | None => Raise KeyError
  end.

(** [key in d]. *)
Definition contains {V : Type} (d : list (string * V)) (key : string) : bool :=
  match get d key with
  | Some _ => true
  | None => false
  end.

Definition factor_item (u : unit_cfg A) : result A :=
  match factor u with
  | Some f => Ret f
  | None => Raise KeyError
  end.

End Config.

(** ** [ConverterService] *)

Module ConverterService.
Section Service.
Context {A : Type} `{Arith A}.

Definition _convert_temp (value : A) (from_unit to_unit : string) : A :=
  let celsius :=
    if String.eqb from_unit "f" then div (mul (sub value (of_Z 32)) (of_Z 5)) (of_Z 9)
    else if String.eqb from_unit "k" then sub value (lit 27315 2)
    else value in
  if String.eqb to_unit "c" then celsius
  else if String.eqb to_unit "f" then add (div (mul celsius (of_Z 9)) (of_Z 5)) (of_Z 32)
  else if String.eqb to_unit "k" then add celsius (lit 27315 2)
  else celsius.

(** [None] is the source's not-found value.  The divisors are the literals
    9 and 5 and the factors of the table, none of them zero. *)
Definition convert (category : string) (value : A) (from_unit to_unit : string)
  : result (option A) :=
  if negb (contains UNITS_CONFIG category) then Ret None
  else if String.eqb category "temperature"
  then Ret (Some (_convert_temp value from_unit to_unit))
  else
    cfg <- item UNITS_CONFIG category ;;
    let units := units cfg in
    if negb (contains units from_unit) || negb (contains units to_unit) then Ret None
    else
      uf <- item units from_unit ;;
      ff <- factor_item uf ;;
      let base_value := mul value ff in
      ut <- item units to_unit ;;
      ft <- factor_item ut ;;
      Ret (Some (div base_value ft)).

End Service.
End ConverterService.

(** ** [RequestHandler] *)

Module RequestHandler.

(** The handlers run on the class attribute [request_history], a list that
    every request shares: a computation takes the list and gives the list
    it leaves, with its value or the exception it raised. *)
Definition M (T : Type) : Type := list record -> list record * result T.

Definition mret {T : Type} (x : T) : M T := fun h => (h, Ret x).

Definition mbind {T U : Type} (m : M T) (k : T -> M U) : M U :=
  fun h =>
    match m h with
    | (h', Ret x) => k x h'
    | (h', Raise e) => (h', Raise e)
    end.

Definition lift {T : Type} (r : result T) : M T := fun h => (h, r).

(** [self.request_history.append(entry)] *)
Definition append (entry : record) : M unit := fun h => ((h ++ [entry])%list, Ret tt).

(** [if len(self.request_history) > 5: self.request_history.pop(0)] *)
Definition cap : M unit :=
  fun h => (if (5 <? List.length h)%nat then tl h else h, Ret tt).

Definition read : M (list record) := fun h => (h, Ret h).

Notation "x <~ m ;; k" := (mbind m (fun x => k))
  (at level 61, m at next level, right associativity).

Definition dquote : string := String "034"%char EmptyString.
Definition newline : string := String "010"%char EmptyString.

(** [data.get(key, [default])[0]] on the parsed form. *)
Definition field (data : list (string * string)) (key default : string) : string :=
  match get data key with
  | Some v => v
  | None => default
  end.

(** [d[key] = v]: a key already there keeps its place. *)
Fixpoint set {V : Type} (d : list (string * V)) (key : string) (v : V)
  : list (string * V) :=
  match d with
  | [] => [(key, v)]
  | (k, x) :: d' =>
      if String.eqb k key then (k, v) :: d' else (k, x) :: set d' key v
  end.

Section Handler.
Context {A : Type} `{Arith A}.

(** [float(amount_str)], [None] for the [ValueError] that [do_POST]
    catches, and [f"{res:.4f}"]: builtins that the source does not
    contain. *)
Variable parse_float : string -> option A.
Variable format_4f : A -> string.
Variable repr_float : float -> string.
Variable uni_word : string -> nat.

(** [index_dynamic.html], as the engine finds it. *)
Variable template : template_file.

Definition _get_options_html (category selected : string) : string :=
  match get (UNITS_CONFIG (A:=A)) category with
  | None => ""
  | Some cfg =>
      String.concat newline
        (map (fun cd : string * unit_cfg A =>
                let is_selected :=
                  if String.eqb (fst cd) selected then "selected" else "" in
                "<option value=" ++ dquote ++ fst cd ++ dquote ++ " "
                ++ is_selected ++ ">" ++ name (snd cd) ++ "</option>")
             (units cfg))
  end.

(** The context holds the history list itself, so [render] reads the list
    as it is when it is called. *)
Definition _send_response (ctx : context) : M string :=
  h <~ read ;;
  lift (TemplateEngine.render uni_word repr_float template (set ctx "history" (VList h))).

Definition vstr (s : string) : value := VScalar (SStr s).

Definition do_POST (data : list (string * string)) : M string :=
  let category := field data "category" "length" in
  let amount_str := field data "amount" "0" in
  let unit_from := field data "unit_from" "" in
  let unit_to := field data "unit_to" "" in
  let action := field data "action" "convert" in
  h0 <~ read ;;
  let ctx : context :=
    [ ("current_cat", vstr category);
      ("amount", vstr amount_str);
      ("history", VList h0);
      ("result", vstr "");
      ("explanation", vstr "") ] in
  let swapped := String.eqb action "swap" in
  let unit_from' := if swapped then unit_to else unit_from in
  let unit_to' := if swapped then unit_from else unit_to in
  ctx <~ (if swapped then mret ctx
          else if String.eqb action "convert" then
            match parse_float amount_str with
            | None => mret ctx
            | Some val =>
                res <~ lift (ConverterService.convert category val unit_from unit_to) ;;
                match res with
                | None => mret ctx
                | Some res =>
                    let res_formatted :=
                      Str.rstrip "." (Str.rstrip "0" (format_4f res)) in
                    let ctx := set ctx "result" (vstr res_formatted) in
                    cfg <~ lift (item (UNITS_CONFIG (A:=A)) category) ;;
                    uf <~ lift (item (units cfg) unit_from) ;;
                    let u_from_name := name uf in
                    ut <~ lift (item (units cfg) unit_to) ;;
                    let u_to_name := name ut in
                    let ctx :=
                      set ctx "explanation"
                        (vstr (amount_str ++ " " ++ u_from_name ++ " = "
                               ++ res_formatted ++ " " ++ u_to_name)) in
                    _ <~ append
                           [ ("from_val", SStr (amount_str ++ " " ++ u_from_name));
                             ("to_val", SStr (res_formatted ++ " " ++ u_to_name)) ] ;;
                    _ <~ cap ;;
                    mret ctx
                end
            end
          else mret ctx) ;;
  let ctx := set ctx "unit_from_options" (vstr (_get_options_html category unit_from')) in
  let ctx := set ctx "unit_to_options" (vstr (_get_options_html category unit_to')) in
  _send_response ctx.

(** [params] is the parsed query string.  [UNITS_CONFIG[category]] raises
    when the key is absent. *)
Definition do_GET (params : list (string * string)) : M string :=
  let category := field params "category" "length" in
  let category :=
    if negb (contains (UNITS_CONFIG (A:=A)) category) then "length" else category in
  cfg <~ lift (item (UNITS_CONFIG (A:=A)) category) ;;
  let available_units := map fst (units cfg) in
  let unit_from := match available_units with u :: _ => u | [] => "" end in
  let unit_to := match available_units with _ :: u :: _ => u | _ => unit_from end in
  h <~ read ;;
  let ctx : context :=
    [ ("current_cat", vstr category);
      ("amount", VScalar (SInt 100));
      ("unit_from_options", vstr (_get_options_html category unit_from));
      ("unit_to_options", vstr (_get_options_html category unit_to));
      ("history", VList h);
      ("result", vstr "") ] in
  _send_response ctx.

(** A request as the server dispatches it, by its method. *)
Inductive request : Type :=
  | GET (params : list (string * string))
  | POST (data : list (string * string)).

Definition handle (r : request) : M string :=
  match r with
  | GET params => do_GET params
  | POST data => do_POST data
  end.

End Handler.
End RequestHandler.

(** * Vocabulary of the statements *)

(** The texts of a list, one after the other. *)
Fixpoint flat (l : list string) : string :=
  match l with
  | [] => EmptyString
  | x :: xs => x ++ flat xs
  end.

(** [pat in s]. *)
Definition occurs (pat s : string) : bool :=
  match Str.split_on pat s with
  | Some _ => true
  | None => false
  end.

(** A name in ASCII, as [(\w+)] takes it: one word character or more. *)
Fixpoint all_word (k : string) : bool :=
  match k with
  | EmptyString => true
  | String c t => Re.is_word c && all_word t
  end.

Definition is_name (k : string) : Prop :=
  k <> EmptyString /\ all_word k = true.

(** A key whose marker can be told from the others: it holds no opening
    brace and no blank. *)
Definition plain_key (k : string) : Prop :=
  Str.has_char "{" k = false /\ Str.has_char " " k = false.

(** A text in which every opening brace is followed by a character other
    than [d]: the two characters [{] and [d] start nowhere in it, whatever
    text comes after it. *)
Fixpoint quiet (d : ascii) (s : string) : bool :=
  match s with
  | EmptyString => true
  | String c t =>
      (if Ascii.eqb c "{"
       then match t with
            | EmptyString => false
            | String e _ => negb (Ascii.eqb e d)
            end
       else true) && quiet d t
  end.

(** A text in which no marker [{{ key }}] starts. *)
Definition inert (s : string) : bool := quiet "{" s.

(** A text cut into its markers and the stretches between them. *)
Inductive seg : Type :=
  | Lit (s : string)
  | Var (key : string).

Definition seg_text (g : seg) : string :=
  match g with
  | Lit s => s
  | Var key => TemplateEngine.marker key
  end.

Definition text_of (segs : list seg) : string := flat (map seg_text segs).

(** What stage 3 makes of a segment: the string form of a scalar for its
    marker, anything else as it stands. *)
Definition expand (repr_float : float -> string) (ctx : context) (g : seg) : string :=
  match g with
  | Lit s => s
  | Var key =>
      match get ctx key with
      | Some (VScalar x) => TemplateEngine.str repr_float x
      | _ => TemplateEngine.marker key
      end
  end.

Definition well_formed_seg (g : seg) : Prop :=
  match g with
  | Lit s => inert s = true
  | Var key => plain_key key
  end.

(** One step of stage 3 on the segments: the markers of [key] give way to
    [new]. *)
Definition subst_seg (key new : string) (g : seg) : seg :=
  match g with
  | Lit s => Lit s
  | Var k => if String.eqb key k then Lit new else Var k
  end.


(** The spec's truthy values: a non-empty string, a non-zero number, the
    boolean true, a non-empty sequence; an absent key is not one. *)
Definition Truthy (v : option value) : Prop :=
  match v with
  | Some (VScalar (SStr s)) => s <> EmptyString
  | Some (VScalar (SInt z)) => z <> 0%Z
  | Some (VScalar (SFloat f)) => PrimFloat.eqb f 0%float = false
  | Some (VScalar (SBool b)) => b = true
  | Some (VList items) => items <> []
  | None => False
  end.

Definition loop_block (k body else_body : string) : string :=
  "{% for item in " ++ k ++ " %}" ++ body ++ "{% else %}" ++ else_body ++ "{% endfor %}".

Definition if_block (k body : string) : string :=
  "{% if " ++ k ++ " %}" ++ body ++ "{% endif %}".

(** The spec's two temperature maps, through Celsius. *)
Definition to_celsius {A : Type} `{Arith A} (v : A) (from_unit : string) : A :=
  if String.eqb from_unit "c" then v
  else if String.eqb from_unit "f" then div (mul (sub v (of_Z 32)) (of_Z 5)) (of_Z 9)
  else if String.eqb from_unit "k" then sub v (lit 27315 2)
  else v.

Definition from_celsius {A : Type} `{Arith A} (cel : A) (to_unit : string) : A :=
  if String.eqb to_unit "c" then cel
  else if String.eqb to_unit "f" then add (div (mul cel (of_Z 9)) (of_Z 5)) (of_Z 32)
  else if String.eqb to_unit "k" then add cel (lit 27315 2)
  else cel.

(** The unit mapping of a category, and [factor[unit]] in it. *)
Definition units_of {A : Type} `{Arith A} (category : string)
    : option (list (string * unit_cfg A)) :=
  match get UNITS_CONFIG category with
  | Some cfg => Some (units cfg)
  | None => None
  end.

Definition factor_of {A : Type} `{Arith A} (category unit : string) : option A :=
  match units_of category with
  | Some us =>
      match get us unit with
      | Some u => factor u
      | None => None
      end
  | None => None
  end.

(** A request that names an unknown category, or a unit that its category
    does not have. *)
Definition unknown {A : Type} `{Arith A} (category from_unit to_unit : string) : Prop :=
  match units_of (A:=A) category with
  | None => True
  | Some us => get us from_unit = None \/ get us to_unit = None
  end.

(** A call on the rationals that returns a value equal to [q]. *)
Definition gives (r : result (option Q)) (q : Q) : Prop :=
  match r with
  | Ret (Some x) => (x == q)%Q
  | _ => False
  end.

(** Equal within a relative tolerance, as [math.isclose] has it: an infinity
    is close to itself only. *)
Definition close (tol x y : float) : bool :=
  (x =? y)%float
  || (is_finite x && is_finite y
      && (abs (x - y) <=? tol * (if (abs x <? abs y) then abs y else abs x))%float).

(** The number that a binary64 stands for; 0 for an infinity and for NaN. *)
Definition SF2Q (x : spec_float) : Q :=
  match x with
  | S754_finite false m e => (inject_Z (Zpos m) * 2 ^ e)%Q
  | S754_finite true m e => (- (inject_Z (Zpos m) * 2 ^ e))%Q
  | _ => 0%Q
  end.

Definition F2Q (x : float) : Q := SF2Q (Prim2SF x).

(** A positive normal binary64 with the exponent [e]: its mantissa has its
    53 bits. *)
Definition normal (x : float) (e : Z) : Prop :=
  exists m : positive,
    Prim2SF x = S754_finite false m e /\ (2 ^ 52 <= Zpos m < 2 ^ 53)%Z.

(** The same with the exponent between two bounds, as a test. *)
Definition normal_in (lo hi : Z) (x : float) : bool :=
  match Prim2SF x with
  | S754_finite false m e =>
      ((2 ^ 52 <=? Zpos m) && (Zpos m <? 2 ^ 53) && (lo <=? e) && (e <=? hi))%Z
  | _ => false
  end.

(** [a] is within the relative distance [t] of [b], and between [lo] times
    [b] and [hi] times [b]. *)
Definition within (t a b : Q) : Prop := (b * (1 - t) <= a <= b * (1 + t))%Q.

Definition between (lo hi a b : Q) : Prop := (b * lo <= a <= b * hi)%Q.


(** The history entry that a request makes when its conversion succeeds:
    the action is a conversion, the amount is a number, the converter gives a
    value and both units have a display name. *)
Section HistorySpec.
Context {A : Type} `{Arith A}.
Variable parse_float : string -> option A.
Variable format_4f : A -> string.
Variable repr_float : float -> string.
Variable uni_word : string -> nat.
Variable template : template_file.

Definition conversion_of (data : list (string * string)) : option record :=
  let category := RequestHandler.field data "category" "length" in
  let amount_str := RequestHandler.field data "amount" "0" in
  let unit_from := RequestHandler.field data "unit_from" "" in
  let unit_to := RequestHandler.field data "unit_to" "" in
  let action := RequestHandler.field data "action" "convert" in
  if String.eqb action "convert" then
    match parse_float amount_str with
    | None => None
    | Some val =>
        match ConverterService.convert category val unit_from unit_to,
              units_of (A:=A) category with
        | Ret (Some res), Some us =>
            match get us unit_from, get us unit_to with
            | Some uf, Some ut =>
                let res_formatted := Str.rstrip "." (Str.rstrip "0" (format_4f res)) in
                Some [ ("from_val", SStr (amount_str ++ " " ++ name uf));
                       ("to_val", SStr (res_formatted ++ " " ++ name ut)) ]
            | _, _ => None
            end
        | _, _ => None
        end
    end
  else None.


End HistorySpec.

(** ** Vocabulary of the further properties *)

(** [n] zeros. *)
Fixpoint zeros (n : nat) : string :=
  match n with
  | O => EmptyString
  | S k => String "0" (zeros k)
  end.

(** [s.endswith(c)] for a character [c]. *)
Fixpoint ends_with (c : ascii) (s : string) : bool :=
  match s with
  | EmptyString => false
  | String a EmptyString => Ascii.eqb a c
  | String _ t => ends_with c t
  end.

(** The opening of a loop on [k]. *)
Definition loop_open (k : string) : string := "{% for item in " ++ k ++ " %}".

(** Whether [pat] starts at a position of [s] in the text [s ++ rest]: the
    occurrence may end in [rest]. *)
Fixpoint starts_in (pat s rest : string) : bool :=
  match s with
  | EmptyString => false
  | String c t => prefix pat (s ++ rest) || starts_in pat t rest
  end.

(** The last [n] elements of a list. *)
Definition last_n {T : Type} (n : nat) (l : list T) : list T :=
  skipn (List.length l - n) l.

(** A history entry as [do_POST] writes it. *)
Definition entry_shape (e : record) : Prop :=
  exists a b : string, e = [("from_val", SStr a); ("to_val", SStr b)].

Section ServerSpec.
Context {A : Type} `{Arith A}.
Variable parse_float : string -> option A.
Variable format_4f : A -> string.
Variable repr_float : float -> string.
Variable uni_word : string -> nat.
Variable template : template_file.

(** The history after a run of requests, GET and POST, handled one after
    the other from the empty history.  A request whose handler raises
    leaves the list as the handler left it, and the next request is
    handled. *)
Definition run_server (requests : list RequestHandler.request) : list record :=
  fold_left
    (fun h r =>
       fst (RequestHandler.handle parse_float format_4f repr_float uni_word template r h))
    requests [].

(** The entries of the conversions that succeed in a run of requests, in
    the order of the requests. *)
Definition conversions (requests : list RequestHandler.request) : list record :=
  flat_map
    (fun r =>
       match r with
       | RequestHandler.GET _ => []
       | RequestHandler.POST data =>
           match conversion_of parse_float format_4f data with
           | Some e => [e]
           | None => []
           end
       end)
    requests.

End ServerSpec.

(** * Facts *)

(** ** Strings *)

Module StrFacts.

Lemma app_nil_r (s : string) : s ++ "" = s.
Proof. induction s as [|c s IH]; simpl; [reflexivity | now rewrite IH]. Qed.

Lemma app_assoc (a b c : string) : (a ++ b) ++ c = a ++ b ++ c.
Proof. induction a as [|x a IH]; simpl; [reflexivity | now rewrite IH]. Qed.

Lemma length_app (a b : string) :
  String.length (a ++ b) = String.length a + String.length b.
Proof. induction a as [|x a IH]; simpl; [reflexivity | now rewrite IH]. Qed.


(** Two ways to cut one text: the shorter head is a head of the longer. *)
Lemma app_split (c a b d : string) :
  a ++ b = c ++ d -> String.length c <= String.length a ->
  exists e, a = c ++ e /\ d = e ++ b.
Proof.
  revert a. induction c as [|x c IH]; intros a E L; simpl in *.
  - exists a. now split.
  - destruct a as [|y a]; simpl in *; [lia |].
    injection E as -> E.
    destruct (IH a E) as [e [-> ->]]; [lia |].
    exists e. now split.
Qed.

Lemma prefix_iff (p s : string) :
  prefix p s = true <-> exists r, s = p ++ r.
Proof.
  revert s. induction p as [|a p IH]; intros s; simpl.
  - destruct s; split; intros _; try reflexivity; eexists; reflexivity.
  - destruct s as [|b s]; simpl.
    + split; [discriminate | intros [r E]; discriminate].
    + destruct (ascii_dec a b) as [->|N].
      * rewrite IH. split; intros [r E]; exists r.
        -- now rewrite E.
        -- now injection E.
      * split; [discriminate |].
        intros [r E]. injection E as E _. now elim N.
Qed.

Lemma prefix_app (p r : string) : prefix p (p ++ r) = true.
Proof. apply prefix_iff. now exists r. Qed.

Lemma prefix_false (p s : string) :
  (forall r, s <> p ++ r) -> prefix p s = false.
Proof.
  intros N. destruct (prefix p s) eqn:E; [| reflexivity].
  apply prefix_iff in E. destruct E as [r E]. now elim (N r).
Qed.

(** Over a text at least as long as [p], what follows does not matter. *)
Lemma prefix_app_long (p s x : string) :
  String.length p <= String.length s ->
  prefix p (s ++ x) = prefix p s.
Proof.
  intros L. destruct (prefix p s) eqn:E.
  - apply prefix_iff in E. destruct E as [r ->].
    rewrite app_assoc. apply prefix_app.
  - apply prefix_false. intros r E'.
    destruct (app_split p s x r E' L) as [e [-> _]].
    now rewrite prefix_app in E.
Qed.

Lemma drop_app (p s : string) : Str.drop (String.length p) (p ++ s) = s.
Proof. induction p as [|x p IH]; simpl; [now destruct s | exact IH]. Qed.

Lemma has_char_app (c : ascii) (a b : string) :
  Str.has_char c (a ++ b) = Str.has_char c a || Str.has_char c b.
Proof.
  induction a as [|x a IH]; simpl; [reflexivity |].
  now rewrite IH, orb_assoc.
Qed.

(** *** [replace] *)

Lemma replace_from_skip (old new u r : string) :
  Str.replace_from old new (String.length u) (u ++ r)
  = Str.replace_from old new 0 r.
Proof.
  induction u as [|c u IH]; simpl; [now destruct r | exact IH].
Qed.

Section Replace.
Variables old new : string.

Lemma replace_from_hit (r : string) :
  old <> "" ->
  Str.replace_from old new 0 (old ++ r) = new ++ Str.replace_from old new 0 r.
Proof.
  intros N. generalize (prefix_app old r).
  destruct old as [|a o]; [now elim N |].
  simpl append. cbn [Str.replace_from]. intros ->. f_equal.
  cbn [String.length]. rewrite Nat.sub_succ, Nat.sub_0_r.
  apply replace_from_skip.
Qed.

(** A stretch of text at no position of which [old] starts is copied. *)
Lemma replace_from_pass (m r : string) :
  (forall u v, m = u ++ v -> v <> "" -> prefix old (v ++ r) = false) ->
  Str.replace_from old new 0 (m ++ r) = m ++ Str.replace_from old new 0 r.
Proof.
  induction m as [|c m IH]; intros P; [reflexivity |].
  simpl append. cbn [Str.replace_from].
  assert (E : prefix old (String c (m ++ r)) = false).
  { apply (P "" (String c m)); [reflexivity | discriminate]. }
  rewrite E. f_equal. apply IH.
  intros u v -> Nv. apply (P (String c u) v); [reflexivity | exact Nv].
Qed.

End Replace.

Lemma replace_from_cons (old new : string) (c : ascii) (t : string) :
  Str.replace_from old new 0 (String c t)
  = if prefix old (String c t)
    then new ++ Str.replace_from old new (String.length old - 1) t
    else String c (Str.replace_from old new 0 t).
Proof. reflexivity. Qed.

Lemma replace_from_cons_skip (old new : string) (n : nat) (c : ascii) (t : string) :
  Str.replace_from old new (S n) (String c t) = Str.replace_from old new n t.
Proof. reflexivity. Qed.

End StrFacts.

(** ** Markers *)

Module MarkerFacts.
Import StrFacts.

Lemma marker_unfold (k : string) :
  TemplateEngine.marker k = String "{" (String "{" (String " " (k ++ " }}"))).
Proof. reflexivity. Qed.



Lemma marker_not_empty (k : string) : TemplateEngine.marker k <> "".
Proof. discriminate. Qed.

(** Where a marker starts, two opening braces start. *)
Lemma marker_opens (f s : string) :
  prefix (TemplateEngine.marker f) s = true -> prefix "{{" s = true.
Proof.
  intros P. apply prefix_iff in P. destruct P as [r ->].
  reflexivity.
Qed.

Lemma no_char_head (c d : ascii) (u v w : string) :
  Str.has_char c (u ++ String d v) = false -> d <> c.
Proof.
  rewrite has_char_app. simpl. intros E ->.
  rewrite Ascii.eqb_refl, orb_true_r in E. discriminate.
Qed.

Lemma prefix_opens_head (d : ascii) (s : string) :
  d <> "{"%char -> prefix "{{" (String d s) = false.
Proof.
  intros N. apply prefix_false. intros r E. simpl in E.
  injection E as E _. now elim N.
Qed.

(** Past its first character, no two opening braces start inside the marker
    of a key that has no opening brace. *)
Lemma marker_inside (k u v r : string) :
  Str.has_char "{" k = false ->
  TemplateEngine.marker k = u ++ v -> u <> "" -> v <> "" ->
  prefix "{{" (v ++ r) = false.
Proof.
  intros Hk E Nu Nv. rewrite marker_unfold in E.
  destruct u as [|c0 u]; [now elim Nu |].
  simpl in E. injection E as _ E.
  destruct u as [|c1 u]; simpl in E.
  - rewrite <- E. reflexivity.
  - injection E as _ E.
    destruct v as [|d v]; [now elim Nv |].
    simpl. apply prefix_opens_head.
    assert (H : Str.has_char "{" (String " " (k ++ " }}")) = false).
    { simpl. rewrite has_char_app, Hk. reflexivity. }
    rewrite E in H. eapply no_char_head with (w := ""). exact H.
Qed.

Lemma key_until_blank (k f x y : string) :
  Str.has_char " " k = false -> Str.has_char " " f = false ->
  k ++ String " " x = f ++ String " " y -> k = f.
Proof.
  revert f. induction k as [|c k IH]; intros f Hk Hf E.
  - destruct f as [|d f]; [reflexivity |].
    simpl in E. injection E as <- _.
    simpl in Hf. discriminate.
  - destruct f as [|d f]; simpl in E.
    + injection E as -> _. simpl in Hk. discriminate.
    + injection E as -> E. f_equal.
      simpl in Hk, Hf.
      apply orb_false_elim in Hk. apply orb_false_elim in Hf.
      apply (IH f); tauto.
Qed.

(** The marker of one plain key does not start where the marker of another
    stands. *)
Lemma marker_head (f k r : string) :
  plain_key f -> plain_key k ->
  prefix (TemplateEngine.marker f) (TemplateEngine.marker k ++ r) = true -> f = k.
Proof.
  intros [_ Hf] [_ Hk] P. apply prefix_iff in P. destruct P as [r' E].
  rewrite !marker_unfold in E. simpl in E. injection E as E.
  rewrite !app_assoc in E. simpl in E.
  symmetry. eapply key_until_blank; eassumption.
Qed.

(** No marker starts before another one and runs into it. *)
Lemma marker_straddle (f k u r : string) :
  Str.has_char "{" f = false ->
  prefix (TemplateEngine.marker f) (u ++ TemplateEngine.marker k ++ r) = true ->
  String.length u < String.length (TemplateEngine.marker f) ->
  u = "".
Proof.
  intros Hf P L. apply prefix_iff in P. destruct P as [r' E].
  destruct (app_split u (TemplateEngine.marker f) r' (TemplateEngine.marker k ++ r))
    as [e [E1 E2]]; [now symmetry | lia |].
  destruct u as [|c u]; [reflexivity |].
  assert (Ne : e <> "").
  { intros ->. rewrite E1, length_app in L. simpl in L. lia. }
  pose proof (marker_inside f (String c u) e r' Hf E1 ltac:(discriminate) Ne) as Q.
  rewrite <- E2 in Q. discriminate.
Qed.

Lemma marker_not_at (f v r : string) :
  prefix "{{" (v ++ r) = false -> prefix (TemplateEngine.marker f) (v ++ r) = false.
Proof.
  intros N. destruct (prefix (TemplateEngine.marker f) (v ++ r)) eqn:E; [| reflexivity].
  apply marker_opens in E. congruence.
Qed.

Lemma replace_marker (f new s : string) :
  Str.replace (TemplateEngine.marker f) new s
  = Str.replace_from (TemplateEngine.marker f) new 0 s.
Proof. reflexivity. Qed.

(** The marker of another key is copied. *)
Lemma replace_over_marker (f k new r : string) :
  plain_key f -> plain_key k -> f <> k ->
  Str.replace_from (TemplateEngine.marker f) new 0 (TemplateEngine.marker k ++ r)
  = TemplateEngine.marker k ++ Str.replace_from (TemplateEngine.marker f) new 0 r.
Proof.
  intros Pf Pk N. apply replace_from_pass. intros u v E Nv.
  destruct u as [|c u].
  - simpl in E. subst v.
    destruct (prefix (TemplateEngine.marker f) (TemplateEngine.marker k ++ r)) eqn:P;
      [| reflexivity].
    elim N. eapply marker_head; eassumption.
  - apply marker_not_at.
    eapply marker_inside; [apply Pk | exact E | discriminate | exact Nv].
Qed.

(** The marker of another key splits the text: what is before it and what
    is after it are replaced apart. *)
Lemma replace_around_marker (f k new q : string) :
  plain_key f -> plain_key k -> f <> k ->
  forall p n, n <= String.length p ->
  Str.replace_from (TemplateEngine.marker f) new n (p ++ TemplateEngine.marker k ++ q)
  = Str.replace_from (TemplateEngine.marker f) new n p
    ++ TemplateEngine.marker k ++ Str.replace_from (TemplateEngine.marker f) new 0 q.
Proof.
  intros Pf Pk N. induction p as [|c p IH]; intros n L.
  - simpl in L. assert (n = 0) as -> by lia.
    change ("" ++ TemplateEngine.marker k ++ q) with (TemplateEngine.marker k ++ q).
    rewrite replace_over_marker by assumption. reflexivity.
  - change (String c p ++ TemplateEngine.marker k ++ q)
      with (String c (p ++ TemplateEngine.marker k ++ q)).
    destruct n as [|n].
    + rewrite !replace_from_cons.
      destruct (prefix (TemplateEngine.marker f)
                  (String c (p ++ TemplateEngine.marker k ++ q))) eqn:P.
      * assert (Lp : String.length (TemplateEngine.marker f) <= String.length (String c p)).
        { destruct (Nat.le_gt_cases (String.length (TemplateEngine.marker f))
                      (String.length (String c p))) as [H|H]; [exact H |].
          pose proof (marker_straddle f k (String c p) q (proj1 Pf) P H). discriminate. }
        change (String c (p ++ TemplateEngine.marker k ++ q))
          with (String c p ++ TemplateEngine.marker k ++ q) in P.
        rewrite prefix_app_long in P by exact Lp. rewrite P.
        rewrite app_assoc. f_equal. apply IH.
        cbn [String.length] in Lp. lia.
      * assert (P' : prefix (TemplateEngine.marker f) (String c p) = false).
        { destruct (prefix (TemplateEngine.marker f) (String c p)) eqn:Q; [| reflexivity].
          apply prefix_iff in Q. destruct Q as [x Q].
          change (String c (p ++ TemplateEngine.marker k ++ q))
            with (String c p ++ TemplateEngine.marker k ++ q) in P.
          rewrite Q, app_assoc, prefix_app in P. discriminate. }
        rewrite P'.
        change (String c (Str.replace_from (TemplateEngine.marker f) new 0 p)
                ++ TemplateEngine.marker k
                ++ Str.replace_from (TemplateEngine.marker f) new 0 q)
          with (String c (Str.replace_from (TemplateEngine.marker f) new 0 p
                          ++ TemplateEngine.marker k
                          ++ Str.replace_from (TemplateEngine.marker f) new 0 q)).
        f_equal. apply IH. lia.
    + rewrite !replace_from_cons_skip. apply IH. cbn [String.length] in L. lia.
Qed.

Lemma quiet_tail (d c : ascii) (s : string) :
  quiet d (String c s) = true -> quiet d s = true.
Proof. simpl. intros E. apply andb_true_iff in E. tauto. Qed.

Lemma quiet_head (d c : ascii) (s r : string) :
  quiet d (String c s) = true ->
  prefix (String "{" (String d "")) (String c s ++ r) = false.
Proof.
  intros E. cbn [quiet] in E. apply andb_true_iff in E. destruct E as [E _].
  apply prefix_false. intros x X. cbn [append] in X. injection X as -> X.
  rewrite Ascii.eqb_refl in E.
  destruct s as [|e s]; [discriminate |].
  cbn [append] in X. injection X as -> _.
  rewrite Ascii.eqb_refl in E. discriminate.
Qed.

Lemma quiet_suffix (d : ascii) (u v r : string) :
  quiet d (u ++ v) = true -> v <> "" ->
  prefix (String "{" (String d "")) (v ++ r) = false.
Proof.
  induction u as [|c u IH]; intros I Nv.
  - destruct v as [|e v]; [now elim Nv |]. now apply quiet_head.
  - apply IH; [| exact Nv]. simpl append in I. now apply quiet_tail in I.
Qed.

Lemma inert_suffix (u v r : string) :
  inert (u ++ v) = true -> v <> "" -> prefix "{{" (v ++ r) = false.
Proof. apply quiet_suffix. Qed.

(** A text in which no marker starts is copied. *)
Lemma replace_over_inert (f new s r : string) :
  inert s = true ->
  Str.replace_from (TemplateEngine.marker f) new 0 (s ++ r)
  = s ++ Str.replace_from (TemplateEngine.marker f) new 0 r.
Proof.
  intros I. apply replace_from_pass. intros u v -> Nv.
  apply marker_not_at. eapply inert_suffix; eassumption.
Qed.

End MarkerFacts.

(** ** Stage 3 and the body of a loop *)

Module SubstFacts.
Import StrFacts MarkerFacts.

Section WithRepr.
Variable repr_float : float -> string.

Local Abbreviation str := (TemplateEngine.str repr_float).
Local Abbreviation scalar_stage := (TemplateEngine.scalar_stage repr_float).
Local Abbreviation render_item := (TemplateEngine.render_item repr_float).
Local Abbreviation marker := TemplateEngine.marker.

Lemma scalar_stage_cons (k : string) (v : value) (ctx : context) (t : string) :
  scalar_stage ((k, v) :: ctx) t
  = scalar_stage ctx
      match v with
      | VScalar x => Str.replace (marker k) (str x) t
      | VList _ => t
      end.
Proof. destruct v as [[s|z|f|b]|l]; reflexivity. Qed.


Lemma get_absent {V : Type} (d : list (string * V)) (k : string) :
  ~ In k (map fst d) -> get d k = None.
Proof.
  induction d as [|[j v] d IH]; intros N; [reflexivity |].
  simpl in *. destruct (String.eqb j k) eqn:E.
  - apply String.eqb_eq in E. tauto.
  - apply IH. tauto.
Qed.

Lemma text_of_cons (g : seg) (segs : list seg) :
  text_of (g :: segs) = seg_text g ++ text_of segs.
Proof. reflexivity. Qed.

(** One replacement, read on the segments. *)
Lemma replace_tokens (f new : string) (segs : list seg) :
  plain_key f -> Forall well_formed_seg segs ->
  Str.replace (marker f) new (text_of segs) = text_of (map (subst_seg f new) segs).
Proof.
  intros Pf W. rewrite replace_marker.
  induction W as [|g segs Wg W IH]; [reflexivity |].
  cbn [map]. rewrite !text_of_cons, <- IH.
  destruct g as [s|k]; cbn [subst_seg seg_text].
  - now apply replace_over_inert.
  - destruct (String.eqb f k) eqn:E.
    + apply String.eqb_eq in E. subst k. cbn [seg_text].
      apply replace_from_hit, marker_not_empty.
    + apply String.eqb_neq in E. cbn [seg_text].
      now apply replace_over_marker.
Qed.

Lemma subst_seg_well_formed (f new : string) (segs : list seg) :
  inert new = true -> Forall well_formed_seg segs ->
  Forall well_formed_seg (map (subst_seg f new) segs).
Proof.
  intros I W. induction W as [|g segs Wg W IH]; constructor; [| exact IH].
  destruct g as [s|k]; cbn [subst_seg]; [exact Wg |].
  destruct (String.eqb f k); [exact I | exact Wg].
Qed.

Lemma flat_map_ext {T : Type} (a b : T -> string) (l : list T) :
  (forall x, In x l -> a x = b x) -> flat (map a l) = flat (map b l).
Proof.
  induction l as [|x l IH]; intros E; [reflexivity |].
  simpl. rewrite (E x), IH; [reflexivity | | now left].
  intros y Hy. apply E. now right.
Qed.

(** Stage 3 on a text cut into markers and inert stretches. *)
Lemma scalar_stage_segs (ctx : context) :
  forall segs : list seg,
  NoDup (map fst ctx) ->
  (forall k x, In (k, VScalar x) ctx -> plain_key k /\ inert (str x) = true) ->
  Forall well_formed_seg segs ->
  scalar_stage ctx (text_of segs) = flat (map (expand repr_float ctx) segs).
Proof.
  induction ctx as [|[k v] ctx IH]; intros segs D P W.
  - apply flat_map_ext. intros [s|j] _; reflexivity.
  - rewrite scalar_stage_cons.
    inversion D as [|? ? Nk D']; subst.
    assert (P' : forall j x, In (j, VScalar x) ctx ->
                             plain_key j /\ inert (str x) = true).
    { intros j x Hj. apply P. now right. }
    destruct v as [x|l].
    + destruct (P k x (or_introl eq_refl)) as [Pk Ix].
      rewrite replace_tokens by assumption.
      rewrite IH; [| assumption | assumption | now apply subst_seg_well_formed].
      rewrite map_map. apply flat_map_ext. intros [s|j] _; [reflexivity |].
      cbn [subst_seg expand get].
      destruct (String.eqb k j); reflexivity.
    + rewrite IH by assumption.
      apply flat_map_ext. intros [s|j] _; [reflexivity |].
      cbn [expand get].
      destruct (String.eqb k j) eqn:E; [| reflexivity].
      apply String.eqb_eq in E. subst j.
      now rewrite (get_absent ctx k Nk).
Qed.

(** The marker of a key that stage 3 does not substitute stays, and the
    texts on its two sides are treated apart. *)
Lemma scalar_stage_around (k : string) (ctx : context) :
  forall p q : string,
  plain_key k ->
  (forall j x, In (j, VScalar x) ctx -> plain_key j /\ j <> k) ->
  scalar_stage ctx (p ++ marker k ++ q)
  = scalar_stage ctx p ++ marker k ++ scalar_stage ctx q.
Proof.
  induction ctx as [|[j v] ctx IH]; intros p q Pk P; [reflexivity |].
  rewrite !scalar_stage_cons.
  assert (P' : forall i x, In (i, VScalar x) ctx -> plain_key i /\ i <> k).
  { intros i x Hi. apply (P i x). now right. }
  destruct v as [x|l]; [| now apply IH].
  destruct (P j x (or_introl eq_refl)) as [Pj N].
  rewrite !replace_marker.
  rewrite (replace_around_marker j k (str x) q Pj Pk N p 0) by lia.
  now apply IH.
Qed.

End WithRepr.
End SubstFacts.

(** ** The two patterns *)

Module ReFacts.
Import StrFacts.

Lemma take_word_name (uni_word : string -> nat) (k rest : string) :
  all_word k = true ->
  Re.take_word uni_word (k ++ String " " rest) = (k, String " " rest).
Proof.
  unfold Re.take_word. induction k as [|c k IH]; intros W; [reflexivity |].
  simpl in W. apply andb_true_iff in W. destruct W as [Wc W].
  simpl. rewrite Wc, (IH W). reflexivity.
Qed.

Lemma strip_prefix_app (p s : string) : Str.strip_prefix p (p ++ s) = Some s.
Proof. unfold Str.strip_prefix. now rewrite prefix_app, drop_app. Qed.

Lemma name_then_close (uni_word : string -> nat) (k rest : string) :
  is_name k -> Re.name_then uni_word " %}" (k ++ " %}" ++ rest) = Some (k, rest).
Proof.
  intros [N W]. unfold Re.name_then.
  change (k ++ " %}" ++ rest) with (k ++ String " " ("%}" ++ rest)).
  rewrite (take_word_name uni_word _ _ W).
  destruct k as [|c k]; [now elim N |].
  change (String " " ("%}" ++ rest)) with (" %}" ++ rest).
  now rewrite strip_prefix_app.
Qed.

Lemma split_on_eq (pat s : string) :
  Str.split_on pat s
  = if prefix pat s then Some ("", Str.drop (String.length pat) s)
    else match s with
         | EmptyString => None
         | String c t =>
             match Str.split_on pat t with
             | Some (before, after) => Some (String c before, after)
             | None => None
             end
         end.
Proof. destruct s; reflexivity. Qed.

(** A literal that starts with its only opening brace is found, after a
    text that does not hold it, right where that text ends. *)
Lemma split_on_fresh (pat' b x : string) :
  Str.has_char "{" pat' = false ->
  occurs (String "{" pat') b = false ->
  Str.split_on (String "{" pat') (b ++ String "{" pat' ++ x) = Some (b, x).
Proof.
  intros Hp. set (pat := String "{" pat').
  induction b as [|c b IH]; intros O.
  - rewrite split_on_eq. change ("" ++ pat ++ x) with (pat ++ x).
    now rewrite prefix_app, drop_app.
  - unfold occurs in O. rewrite split_on_eq in O.
    destruct (prefix pat (String c b)) eqn:P; [discriminate |].
    assert (O' : occurs pat b = false).
    { unfold occurs. destruct (Str.split_on pat b) as [[? ?]|]; [discriminate | reflexivity]. }
    assert (Q : prefix pat (String c b ++ pat ++ x) = false).
    { destruct (Nat.le_gt_cases (String.length pat) (String.length (String c b))) as [L|L].
      - now rewrite prefix_app_long.
      - apply prefix_false. intros r E.
        destruct (app_split (String c b) pat r (pat ++ x)) as [e [E1 E2]];
          [now symmetry | lia |].
        destruct e as [|d e].
        + rewrite E1, app_nil_r in L. lia.
        + unfold pat in E2 at 1. simpl in E2. injection E2 as <- _.
          unfold pat in E1. simpl in E1. injection E1 as _ E1.
          rewrite E1, has_char_app in Hp. simpl in Hp.
          rewrite orb_true_r in Hp. discriminate. }
    change (String c b ++ pat ++ x) with (String c (b ++ pat ++ x)) in *.
    rewrite split_on_eq, Q. now rewrite (IH O').
Qed.

Section Sub.
Context {G : Type}.
Variable try_match : string -> option (G * nat).
Variable repl : G -> result string.

Lemma sub_from_skip (u r : string) :
  Re.sub_from try_match repl (String.length u) (u ++ r)
  = Re.sub_from try_match repl 0 r.
Proof. induction u as [|c u IH]; simpl; [now destruct r | exact IH]. Qed.

(** A match at the head of the text: its replacement, then the text after
    it. *)
Lemma sub_match (m r : string) (g : G) :
  m <> "" ->
  try_match (m ++ r) = Some (g, String.length m) ->
  Re.sub try_match repl (m ++ r)
  = (out <- repl g ;; rest <- Re.sub try_match repl r ;; Ret (out ++ rest)).
Proof.
  intros N T. destruct m as [|c m]; [now elim N |].
  unfold Re.sub. simpl append in *. cbn [Re.sub_from].
  rewrite T. cbn [String.length]. rewrite Nat.sub_succ, Nat.sub_0_r.
  now rewrite sub_from_skip.
Qed.

(** A stretch of text at no position of which the pattern matches is
    copied. *)
Lemma sub_pass (pre rest : string) :
  (forall u v, pre = u ++ v -> v <> "" -> try_match (v ++ rest) = None) ->
  Re.sub try_match repl (pre ++ rest)
  = (r <- Re.sub try_match repl rest ;; Ret (pre ++ r)).
Proof.
  unfold Re.sub. induction pre as [|c pre IH]; intros P.
  - simpl. now destruct (Re.sub_from try_match repl 0 rest).
  - simpl append. cbn [Re.sub_from].
    pose proof (P "" (String c pre) eq_refl ltac:(discriminate)) as Q.
    simpl append in Q. rewrite Q, IH.
    + now destruct (Re.sub_from try_match repl 0 rest).
    + intros u v -> Nv. apply (P (String c u) v); [reflexivity | exact Nv].
Qed.

End Sub.

Lemma loop_pattern_none (uni_word : string -> nat) (s : string) :
  prefix "{%" s = false -> Re.loop_pattern uni_word s = None.
Proof.
  intros P. unfold Re.loop_pattern, Str.strip_prefix.
  destruct (prefix "{% for item in " s) eqn:Q; [| reflexivity].
  apply prefix_iff in Q. destruct Q as [r ->]. discriminate.
Qed.

Lemma if_pattern_none (uni_word : string -> nat) (s : string) :
  prefix "{%" s = false -> Re.if_pattern uni_word s = None.
Proof.
  intros P. unfold Re.if_pattern, Str.strip_prefix.
  destruct (prefix "{% if " s) eqn:Q; [| reflexivity].
  apply prefix_iff in Q. destruct Q as [r ->]. discriminate.
Qed.

Lemma loop_pattern_block (uni_word : string -> nat) (k body else_body post : string) :
  is_name k ->
  occurs "{% else %}" body = false ->
  occurs "{% endfor %}" else_body = false ->
  Re.loop_pattern uni_word (loop_block k body else_body ++ post)
  = Some ((k, body, else_body), String.length (loop_block k body else_body)).
Proof.
  intros Nk Ob Oe. unfold Re.loop_pattern, loop_block.
  rewrite !app_assoc.
  rewrite strip_prefix_app.
  rewrite (name_then_close uni_word _ _ Nk).
  rewrite (split_on_fresh "% else %}" body _ eq_refl Ob).
  rewrite (split_on_fresh "% endfor %}" else_body _ eq_refl Oe).
  do 2 f_equal. rewrite !length_app. lia.
Qed.

Lemma if_pattern_block (uni_word : string -> nat) (k body post : string) :
  is_name k ->
  occurs "{% endif %}" body = false ->
  Re.if_pattern uni_word (if_block k body ++ post)
  = Some ((k, body), String.length (if_block k body)).
Proof.
  intros Nk Ob. unfold Re.if_pattern, if_block.
  rewrite !app_assoc.
  rewrite strip_prefix_app.
  rewrite (name_then_close uni_word _ _ Nk).
  rewrite (split_on_fresh "% endif %}" body _ eq_refl Ob).
  do 2 f_equal. rewrite !length_app. lia.
Qed.



End ReFacts.

(** ** Text that the two patterns step over *)

Module ScanFacts.
Import StrFacts ReFacts.

Lemma strip_prefix_some (p s r : string) :
  Str.strip_prefix p s = Some r -> s = p ++ r.
Proof.
  unfold Str.strip_prefix. destruct (prefix p s) eqn:P; [| discriminate].
  apply prefix_iff in P. destruct P as [x ->]. rewrite drop_app.
  now intros [= ->].
Qed.

Lemma occurs_suffix (pat u v : string) :
  occurs pat (u ++ v) = false -> occurs pat v = false.
Proof.
  induction u as [|c u IH]; intros O; [exact O |].
  apply IH. unfold occurs in *. cbn [append] in O. rewrite split_on_eq in O.
  destruct (prefix pat (String c (u ++ v))); [discriminate |].
  destruct (Str.split_on pat (u ++ v)) as [[? ?]|]; [discriminate | reflexivity].
Qed.

Lemma occurs_head (pat s : string) : occurs pat s = false -> prefix pat s = false.
Proof.
  unfold occurs. rewrite split_on_eq.
  destruct (prefix pat s); [discriminate | reflexivity].
Qed.

(** A literal that starts with its only opening brace does not start in a
    text that does not hold it and end in a text that starts with an opening
    brace. *)
Lemma no_straddle (pat' pre rest : string) :
  Str.has_char "{" pat' = false ->
  occurs (String "{" pat') pre = false ->
  prefix "{" rest = true ->
  forall u v, pre = u ++ v -> v <> "" ->
  prefix (String "{" pat') (v ++ rest) = false.
Proof.
  intros Hp O R u v -> Nv. set (pat := String "{" pat') in *.
  apply occurs_suffix in O. apply occurs_head in O.
  destruct (Nat.le_gt_cases (String.length pat) (String.length v)) as [L|L].
  - now rewrite prefix_app_long.
  - apply prefix_false. intros r E.
    destruct (app_split v pat r rest) as [e [E1 E2]]; [now symmetry | lia |].
    destruct e as [|d e].
    + rewrite E1, app_nil_r in L. lia.
    + apply prefix_iff in R. destruct R as [x R]. rewrite R in E2.
      cbn [append] in E2. injection E2 as <- _.
      destruct v as [|c v]; [now elim Nv |].
      unfold pat in E1. cbn [append] in E1. injection E1 as _ E1.
      rewrite E1, has_char_app in Hp. simpl in Hp.
      rewrite orb_true_r in Hp. discriminate.
Qed.

Lemma loop_pattern_needs_open (uni_word : string -> nat) (s : string) :
  prefix "{% for item in " s = false -> Re.loop_pattern uni_word s = None.
Proof. intros P. unfold Re.loop_pattern, Str.strip_prefix. now rewrite P. Qed.

Lemma if_pattern_needs_open (uni_word : string -> nat) (s : string) :
  prefix "{% if " s = false -> Re.if_pattern uni_word s = None.
Proof. intros P. unfold Re.if_pattern, Str.strip_prefix. now rewrite P. Qed.

(** Stage 1 steps over a text that holds no opening of a loop, up to the
    next text that starts with an opening brace. *)
Lemma loop_stage_over (uni_word : string -> nat) (repr_float : float -> string)
  (ctx : context) (pre rest : string) :
  occurs "{% for item in " pre = false -> prefix "{" rest = true ->
  TemplateEngine.loop_stage uni_word repr_float ctx (pre ++ rest)
  = (r <- TemplateEngine.loop_stage uni_word repr_float ctx rest ;; Ret (pre ++ r)).
Proof.
  intros O R. unfold TemplateEngine.loop_stage. apply sub_pass.
  intros u v E Nv. apply loop_pattern_needs_open.
  exact (no_straddle "% for item in " pre rest eq_refl O R u v E Nv).
Qed.

(** Stage 2 steps over a text that holds no opening of a conditional. *)
Lemma if_stage_over (uni_word : string -> nat) (ctx : context) (pre rest : string) :
  occurs "{% if " pre = false -> prefix "{" rest = true ->
  TemplateEngine.if_stage uni_word ctx (pre ++ rest)
  = (r <- TemplateEngine.if_stage uni_word ctx rest ;; Ret (pre ++ r)).
Proof.
  intros O R. unfold TemplateEngine.if_stage. apply sub_pass.
  intros u v E Nv. apply if_pattern_needs_open.
  exact (no_straddle "% if " pre rest eq_refl O R u v E Nv).
Qed.

Lemma starts_in_at (pat s rest : string) :
  starts_in pat s rest = false ->
  forall u v, s = u ++ v -> v <> "" -> prefix pat (v ++ rest) = false.
Proof.
  induction s as [|c s IH]; intros S u v E Nv.
  - destruct u; [| discriminate]. cbn [append] in E. now subst v.
  - cbn [starts_in] in S. apply orb_false_elim in S. destruct S as [P S].
    destruct u as [|d u]; cbn [append] in E.
    + subst v. exact P.
    + injection E as _ E. exact (IH S u v E Nv).
Qed.

Lemma starts_in_occurs (pat a b rest : string) :
  pat <> "" -> starts_in pat (a ++ b) rest = false -> occurs pat a = false.
Proof.
  intros N. induction a as [|c a IH]; intros S.
  - unfold occurs. rewrite split_on_eq.
    destruct pat; [now elim N | reflexivity].
  - cbn [append starts_in] in S. apply orb_false_elim in S. destruct S as [P S].
    specialize (IH S). unfold occurs in *. rewrite split_on_eq.
    destruct (prefix pat (String c a)) eqn:Q.
    + apply prefix_iff in Q. destruct Q as [x Q].
      assert (P' : prefix pat ((String c a ++ b) ++ rest) = false) by exact P.
      rewrite Q, !app_assoc, prefix_app in P'. discriminate.
    + destruct (Str.split_on pat a) as [[? ?]|]; [discriminate | reflexivity].
Qed.

Lemma loop_stage_clear (uni_word : string -> nat) (repr_float : float -> string)
  (ctx : context) (s rest : string) :
  starts_in "{% for item in " s rest = false ->
  TemplateEngine.loop_stage uni_word repr_float ctx (s ++ rest)
  = (r <- TemplateEngine.loop_stage uni_word repr_float ctx rest ;; Ret (s ++ r)).
Proof.
  intros S. unfold TemplateEngine.loop_stage. apply sub_pass.
  intros u v E Nv. apply loop_pattern_needs_open.
  exact (starts_in_at _ s rest S u v E Nv).
Qed.

End ScanFacts.

(** ** The converter *)

Module ConvertFacts.
Import ConverterService.

Section Generic.
Context {A : Type} `{Arith A}.

Lemma temp_as_spec (v : A) (f t : string) :
  _convert_temp v f t = from_celsius (to_celsius v f) t.
Proof.
  unfold _convert_temp, from_celsius, to_celsius.
  destruct (String.eqb f "c") eqn:Ec; [| reflexivity].
  apply String.eqb_eq in Ec. subst f. reflexivity.
Qed.

Lemma known_category (category : string) (cfg : category_cfg A) :
  get UNITS_CONFIG category = Some cfg ->
  category = "length" \/ category = "weight"
  \/ category = "temperature" \/ category = "volume".
Proof.
  unfold UNITS_CONFIG. cbn [get]. intros E.
  repeat match type of E with
         | (if String.eqb ?a ?b then _ else _) = _ =>
             destruct (String.eqb_spec a b); [subst; tauto |]
         end.
  discriminate.
Qed.

(** In a category other than temperature every unit carries a factor. *)
Lemma linear_factor (category : string) (cfg : category_cfg A)
  (unit : string) (u : unit_cfg A) :
  get UNITS_CONFIG category = Some cfg -> category <> "temperature" ->
  get (units cfg) unit = Some u ->
  exists f, factor u = Some f /\ factor_of category unit = Some f.
Proof.
  intros E N U.
  assert (F : factor_of category unit = factor u).
  { unfold factor_of, units_of. now rewrite E, U. }
  rewrite F. clear F.
  destruct (known_category _ _ E) as [-> | [-> | [-> | ->]]];
    try (now elim N);
    cbv [get UNITS_CONFIG String.eqb Ascii.eqb Bool.eqb] in E;
    injection E as <-; cbn [units get] in U;
    repeat match type of U with
           | (if String.eqb ?a ?b then _ else _) = _ =>
               destruct (String.eqb a b);
               [injection U as <-; eexists; split; reflexivity |]
           end;
    discriminate.
Qed.

Lemma convert_unknown_category (category : string) (v : A) (f t : string) :
  get UNITS_CONFIG category = None -> convert category v f t = Ret None.
Proof. intros E. unfold convert, contains. now rewrite E. Qed.

Lemma convert_temperature (v : A) (f t : string) :
  convert "temperature" v f t = Ret (Some (_convert_temp v f t)).
Proof. reflexivity. Qed.

(** The linear branch, read off the table. *)
Lemma convert_linear (category : string) (cfg : category_cfg A) (v : A) (f t : string) :
  get UNITS_CONFIG category = Some cfg -> category <> "temperature" ->
  convert category v f t
  = match get (units cfg) f, get (units cfg) t with
    | Some uf, Some ut =>
        match factor uf, factor ut with
        | Some ff, Some ft => Ret (Some (div (mul v ff) ft))
        | _, _ => Raise KeyError
        end
    | _, _ => Ret None
    end.
Proof.
  intros E N. unfold convert, contains, item. rewrite E.
  apply String.eqb_neq in N. rewrite N. cbn [negb bind].
  destruct (get (units cfg) f) as [uf|]; [| reflexivity].
  destruct (get (units cfg) t) as [ut|]; [| reflexivity].
  cbn [negb orb bind]. unfold factor_item.
  destruct (factor uf); [| reflexivity].
  cbn [bind]. destruct (factor ut); reflexivity.
Qed.

End Generic.

(** The literals of the source, as binary64 reads them. *)
#[warnings="-inexact-float"]
Lemma float_literals :
  lit (A:=float) 1000 0 = 1000.0%float
  /\ lit (A:=float) 1 0 = 1.0%float
  /\ lit (A:=float) 1 2 = 0.01%float
  /\ lit (A:=float) 1 3 = 0.001%float
  /\ lit (A:=float) 160934 2 = 1609.34%float
  /\ lit (A:=float) 9144 4 = 0.9144%float
  /\ lit (A:=float) 3048 4 = 0.3048%float
  /\ lit (A:=float) 254 4 = 0.0254%float
  /\ lit (A:=float) 1 6 = 0.000001%float
  /\ lit (A:=float) 453592 6 = 0.453592%float
  /\ lit (A:=float) 283495 7 = 0.0283495%float
  /\ lit (A:=float) 378541 5 = 3.78541%float
  /\ lit (A:=float) 27315 2 = 273.15%float.
Proof. repeat split; reflexivity. Qed.

End ConvertFacts.

(** ** Binary64 *)

Module FloatFacts.

Local Open Scope Z_scope.

(** *** The mantissa of a rounded number *)

Lemma digits_bounds (m : positive) :
  2 ^ (Zpos (digits2_pos m) - 1) <= Zpos m < 2 ^ Zpos (digits2_pos m).
Proof.
  induction m as [m IH|m IH|]; cbn [digits2_pos].
  - rewrite Pos2Z.inj_succ.
    replace (Z.succ (Zpos (digits2_pos m)) - 1) with (Z.succ (Zpos (digits2_pos m) - 1))
      by lia.
    rewrite !Z.pow_succ_r by lia. lia.
  - rewrite Pos2Z.inj_succ.
    replace (Z.succ (Zpos (digits2_pos m)) - 1) with (Z.succ (Zpos (digits2_pos m) - 1))
      by lia.
    rewrite !Z.pow_succ_r by lia. lia.
  - cbn. lia.
Qed.

Lemma digits_unique (m : positive) (k : Z) :
  2 ^ (k - 1) <= Zpos m < 2 ^ k -> Zpos (digits2_pos m) = k.
Proof.
  intros [L U]. destruct (digits_bounds m) as [L' U'].
  destruct (Z.lt_trichotomy (Zpos (digits2_pos m)) k) as [H|[H|H]]; [| exact H |].
  - pose proof (Z.pow_le_mono_r 2 (Zpos (digits2_pos m)) (k - 1)). lia.
  - pose proof (Z.pow_le_mono_r 2 k (Zpos (digits2_pos m) - 1)). lia.
Qed.

Lemma shr_record_of_loc_m (m : Z) (l : location) : shr_m (shr_record_of_loc m l) = m.
Proof. destruct l as [|[]]; reflexivity. Qed.

Lemma shr_1_m (mrs : shr_record) :
  0 <= shr_m mrs -> shr_m (shr_1 mrs) = shr_m mrs / 2.
Proof.
  destruct mrs as [m r s]. cbn [shr_m]. intros P.
  destruct m as [|p|p]; [reflexivity | | lia].
  destruct p as [p|p|]; cbn [shr_1 shr_m].
  - apply Z.div_unique with 1; lia.
  - apply Z.div_unique with 0; lia.
  - reflexivity.
Qed.

Lemma iter_pos_shr (p : positive) :
  forall mrs, 0 <= shr_m mrs ->
  shr_m (iter_pos shr_1 p mrs) = shr_m mrs / 2 ^ Zpos p.
Proof.
  assert (T : forall k, 0 < 2 ^ Zpos k) by (intros k; apply Z.pow_pos_nonneg; lia).
  induction p as [p IH|p IH|]; intros mrs P; cbn [iter_pos].
  - assert (H1 : 0 <= shr_m (shr_1 mrs)).
    { rewrite shr_1_m by exact P. apply Z.div_pos; lia. }
    assert (H2 : 0 <= shr_m (iter_pos shr_1 p (shr_1 mrs))).
    { rewrite IH by exact H1. apply Z.div_pos; [exact H1 | apply T]. }
    rewrite IH by exact H2. rewrite IH by exact H1. rewrite shr_1_m by exact P.
    pose proof (T p).
    rewrite !Z.div_div by lia.
    replace (Zpos p~1) with (1 + Zpos p + Zpos p) by lia.
    rewrite !Z.pow_add_r by lia. f_equal. change (2 ^ 1) with 2. lia.
  - assert (H2 : 0 <= shr_m (iter_pos shr_1 p mrs)).
    { rewrite IH by exact P. apply Z.div_pos; [exact P | apply T]. }
    rewrite IH by exact H2. rewrite IH by exact P.
    pose proof (T p).
    rewrite !Z.div_div by lia.
    replace (Zpos p~0) with (Zpos p + Zpos p) by lia.
    rewrite !Z.pow_add_r by lia. reflexivity.
  - now apply shr_1_m.
Qed.

Lemma round_nearest_even_bounds (m : Z) (l : location) :
  m <= round_nearest_even m l <= m + 1.
Proof.
  destruct l as [|[]]; cbn [round_nearest_even]; try lia.
  destruct (Z.even m); lia.
Qed.

(** The first step of the rounding: the mantissa loses its [n] low bits. *)
Lemma shr_fexp_shift (m e : Z) (l : location) (n : Z) :
  0 <= m -> 0 <= n -> n = Z.max (Zdigits2 m + e - 53) (-1074) - e ->
  shr_m (fst (shr_fexp prec emax m e l)) = m / 2 ^ n
  /\ snd (shr_fexp prec emax m e l) = e + n.
Proof.
  intros Pm Pn E. unfold shr_fexp, fexp, SpecFloat.emin.
  change (Z.max (Zdigits2 m + e - prec) (3 - emax - prec) - e)
    with (Z.max (Zdigits2 m + e - 53) (-1074) - e).
  rewrite <- E. destruct n as [|p|p]; [| | lia]; cbn [shr fst snd].
  - rewrite shr_record_of_loc_m, Z.div_1_r. split; [reflexivity | lia].
  - rewrite iter_pos_shr; rewrite shr_record_of_loc_m; [| exact Pm].
    split; reflexivity.
Qed.


(** A mantissa of [d >= 53] bits without its [d - 53] low bits has 53
    bits. *)
Lemma mantissa_bounds (p : positive) :
  2 ^ 52 <= Zpos p ->
  0 <= Zpos (digits2_pos p) - 53
  /\ 2 ^ 52 <= Zpos p / 2 ^ (Zpos (digits2_pos p) - 53) < 2 ^ 53.
Proof.
  intros Lm. destruct (digits_bounds p) as [B1 B2].
  remember (Zpos (digits2_pos p)) as d eqn:Ed.
  assert (D : 53 <= d).
  { destruct (Z_lt_le_dec d 53) as [H|H]; [| exact H].
    pose proof (Z.pow_le_mono_r 2 d 52). lia. }
  split; [lia |].
  remember (d - 53) as n eqn:En.
  assert (Pn : 0 < 2 ^ n) by (apply Z.pow_pos_nonneg; lia).
  assert (E1 : 2 ^ n * 2 ^ 52 = 2 ^ (d - 1)).
  { rewrite <- Z.pow_add_r by lia. f_equal. lia. }
  assert (E2 : 2 ^ n * 2 ^ 53 = 2 ^ d).
  { rewrite <- Z.pow_add_r by lia. f_equal. lia. }
  split; [apply Z.div_le_lower_bound | apply Z.div_lt_upper_bound]; lia.
Qed.

(** Rounding to nearest of [m * 2^e], for a mantissa of at least 53 bits
    and a result in the normal range: the result is a normal number whose
    mantissa is [m] without its low bits, or that plus one. *)
Lemma round_aux_normal (s : bool) (m e : Z) (l : location) :
  2 ^ 52 <= m -> -1074 <= Zdigits2 m + e - 53 -> Zdigits2 m + e <= 1023 ->
  exists (mf : positive) (ef r : Z),
    binary_round_aux prec emax s m e l = S754_finite s mf ef
    /\ 2 ^ 52 <= Zpos mf < 2 ^ 53
    /\ e + (Zdigits2 m - 53) <= ef <= e + (Zdigits2 m - 53) + 1
    /\ m / 2 ^ (Zdigits2 m - 53) <= r <= m / 2 ^ (Zdigits2 m - 53) + 1
    /\ Zpos mf * 2 ^ (ef - (e + (Zdigits2 m - 53))) = r.
Proof.
  intros Lm Lo Hi.
  destruct m as [|p|p]; [lia | | lia].
  cbn [Zdigits2] in *.
  destruct (mantissa_bounds p Lm) as [D Q1].
  remember (Zpos (digits2_pos p)) as d eqn:Ed.
  remember (d - 53) as n eqn:En.
  destruct (shr_fexp_shift (Zpos p) e l n) as [S1 S2];
    [lia | lia | cbn [Zdigits2]; rewrite <- Ed; lia |].
  unfold binary_round_aux.
  destruct (shr_fexp prec emax (Zpos p) e l) as [mrs' e'] eqn:F1.
  cbn [fst snd] in S1, S2.
  pose proof (round_nearest_even_bounds (shr_m mrs') (loc_of_shr_record mrs')) as Br.
  remember (round_nearest_even (shr_m mrs') (loc_of_shr_record mrs')) as r eqn:Er.
  rewrite S1 in Br. clear Er.
  destruct r as [|pr|pr]; [lia | | lia].
  destruct (Z_lt_le_dec (Zpos pr) (2 ^ 53)) as [C|C].
  - assert (Dr : Zpos (digits2_pos pr) = 53) by (apply digits_unique; lia).
    destruct (shr_fexp_shift (Zpos pr) e' loc_Exact 0) as [T1 T2];
      [lia | lia | cbn [Zdigits2]; rewrite Dr; lia |].
    destruct (shr_fexp prec emax (Zpos pr) e' loc_Exact) as [mrs'' e''].
    cbn [fst snd] in T1, T2. change (2 ^ 0) with 1 in T1. rewrite Z.div_1_r in T1.
    rewrite T1.
    assert (Le : (e'' <=? emax - prec) = true).
    { apply Z.leb_le. change (emax - prec) with 971. lia. }
    rewrite Le. exists pr, e'', (Zpos pr).
    split; [reflexivity |]. split; [lia |]. split; [lia |]. split; [lia |].
    replace (e'' - (e + n)) with 0 by lia. change (2 ^ 0) with 1. lia.
  - assert (Epr : Zpos pr = 2 ^ 53) by lia.
    assert (Dr : Zpos (digits2_pos pr) = 54).
    { apply digits_unique. rewrite Epr. change (2 ^ (54 - 1)) with (2 ^ 53).
      change (2 ^ 54) with (2 * 2 ^ 53). lia. }
    destruct (shr_fexp_shift (Zpos pr) e' loc_Exact 1) as [T1 T2];
      [lia | lia | cbn [Zdigits2]; rewrite Dr; lia |].
    destruct (shr_fexp prec emax (Zpos pr) e' loc_Exact) as [mrs'' e''].
    cbn [fst snd] in T1, T2. rewrite Epr in T1.
    change (2 ^ 53 / 2 ^ 1) with (Zpos 4503599627370496) in T1.
    rewrite T1.
    assert (Le : (e'' <=? emax - prec) = true).
    { apply Z.leb_le. change (emax - prec) with 971. lia. }
    rewrite Le. exists 4503599627370496%positive, e'', (2 ^ 53).
    split; [reflexivity |].
    split; [split; [apply Z.eq_le_incl; reflexivity | reflexivity] |].
    split; [lia |]. split; [lia |].
    replace (e'' - (e + n)) with 1 by lia. reflexivity.
Qed.


(** *** The value of a rounded number *)

Local Open Scope Q_scope.

Lemma two_nonzero : ~ 2 == 0.
Proof. intros H. discriminate H. Qed.

Lemma pow2_pos (e : Z) : 0 < 2 ^ e.
Proof. now apply Qpower_0_lt. Qed.

Lemma pow2_add (a b : Z) : 2 ^ (a + b) == 2 ^ a * 2 ^ b.
Proof. apply Qpower_plus, two_nonzero. Qed.

Lemma pow2_inject (k : Z) : (0 <= k)%Z -> inject_Z (2 ^ k) == 2 ^ k.
Proof. intros P. now rewrite Zpower_Qpower. Qed.

(** The rounded number is within one unit of its last place, hence within
    [2^-52] in relative terms, of any number that the mantissa and the
    mantissa plus one enclose. *)
Lemma round_value (s : bool) (m e : Z) (l : location) (X : Q) :
  (2 ^ 52 <= m)%Z -> (-1074 <= Zdigits2 m + e - 53)%Z -> (Zdigits2 m + e <= 1023)%Z ->
  inject_Z m * 2 ^ e <= X -> X < inject_Z (m + 1) * 2 ^ e ->
  exists (mf : positive) (ef : Z),
    binary_round_aux prec emax s m e l = S754_finite s mf ef
    /\ (2 ^ 52 <= Zpos mf < 2 ^ 53)%Z
    /\ (e + (Zdigits2 m - 53) <= ef <= e + (Zdigits2 m - 53) + 1)%Z
    /\ within (1 # 4503599627370496) (inject_Z (Zpos mf) * 2 ^ ef) X.
Proof.
  intros Lm Lo Hi X1 X2.
  destruct (round_aux_normal s m e l Lm Lo Hi) as (mf & ef & r & E & Bm & Be & Br & Er).
  exists mf, ef. split; [exact E |]. split; [exact Bm |]. split; [exact Be |].
  destruct m as [|p|p]; [lia | | lia].
  cbn [Zdigits2] in *.
  destruct (mantissa_bounds p Lm) as [D [Q1 _]].
  remember (Zpos (digits2_pos p) - 53)%Z as n eqn:En.
  remember (Zpos p / 2 ^ n)%Z as q eqn:Eq.
  assert (Pn : (0 < 2 ^ n)%Z) by (apply Z.pow_pos_nonneg; lia).
  assert (F1 : (2 ^ n * q <= Zpos p)%Z) by (rewrite Eq; now apply Z.mul_div_le).
  assert (F2 : (Zpos p + 1 <= 2 ^ n * (q + 1))%Z).
  { pose proof (Z.mul_succ_div_gt (Zpos p) (2 ^ n) Pn). rewrite <- Eq in H. lia. }
  pose proof (pow2_pos (e + n)) as PP.
  remember (2 ^ (e + n)) as P eqn:EP.
  assert (S1 : forall z : Z, inject_Z (2 ^ n * z) * 2 ^ e == inject_Z z * P).
  { intros z. rewrite inject_Z_mult, pow2_inject, EP, pow2_add by lia. ring. }
  assert (H3 : inject_Z q * P <= X).
  { rewrite <- S1. eapply Qle_trans; [| exact X1].
    apply Qmult_le_compat_r; [now rewrite <- Zle_Qle | apply Qlt_le_weak, pow2_pos]. }
  assert (H4 : X < inject_Z q * P + P).
  { eapply Qlt_le_trans; [exact X2 |].
    setoid_replace (inject_Z q * P + P) with (inject_Z (q + 1) * P)
      by (rewrite inject_Z_plus; ring).
    rewrite <- S1.
    apply Qmult_le_compat_r; [now rewrite <- Zle_Qle | apply Qlt_le_weak, pow2_pos]. }
  assert (H1 : inject_Z q * P <= inject_Z r * P).
  { apply Qmult_le_compat_r; [rewrite <- Zle_Qle; lia | now apply Qlt_le_weak]. }
  assert (H2 : inject_Z r * P <= inject_Z q * P + P).
  { setoid_replace (inject_Z q * P + P) with (inject_Z (q + 1) * P)
      by (rewrite inject_Z_plus; ring).
    apply Qmult_le_compat_r; [rewrite <- Zle_Qle; lia | now apply Qlt_le_weak]. }
  assert (H5 : (4503599627370496 # 1) * P <= inject_Z q * P).
  { apply Qmult_le_compat_r; [| now apply Qlt_le_weak].
    change (4503599627370496 # 1) with (inject_Z (2 ^ 52)). rewrite <- Zle_Qle. lia. }
  assert (H6 : inject_Z (Zpos mf) * 2 ^ ef == inject_Z r * P).
  { rewrite <- Er, inject_Z_mult, pow2_inject by lia.
    rewrite EP, <- Qmult_assoc, <- pow2_add.
    now replace (ef - (e + n) + (e + n))%Z with ef by lia. }
  unfold within. rewrite H6.
  remember (inject_Z q * P) as A. remember (inject_Z r * P) as R.
  split; lra.
Qed.


(** *** Products and quotients of normal numbers *)

Lemma SFmul_normal (mx my : positive) (ex ey : Z) :
  (2 ^ 52 <= Zpos mx < 2 ^ 53)%Z -> (2 ^ 52 <= Zpos my < 2 ^ 53)%Z ->
  (-1126 <= ex + ey <= 917)%Z ->
  exists (mz : positive) (ez : Z),
    SFmul prec emax (S754_finite false mx ex) (S754_finite false my ey)
    = S754_finite false mz ez
    /\ (2 ^ 52 <= Zpos mz < 2 ^ 53)%Z
    /\ (ex + ey + 52 <= ez <= ex + ey + 54)%Z
    /\ within (1 # 4503599627370496) (inject_Z (Zpos mz) * 2 ^ ez)
         ((inject_Z (Zpos mx) * 2 ^ ex) * (inject_Z (Zpos my) * 2 ^ ey)).
Proof.
  intros Bx By Be. cbn [SFmul xorb].
  assert (Bp : (2 ^ 104 <= Zpos (mx * my) < 2 ^ 106)%Z).
  { rewrite Pos2Z.inj_mul.
    change (2 ^ 104)%Z with (2 ^ 52 * 2 ^ 52)%Z.
    change (2 ^ 106)%Z with (2 ^ 53 * 2 ^ 53)%Z.
    split; [apply Z.mul_le_mono_nonneg | apply Z.mul_lt_mono_nonneg]; lia. }
  assert (Dp : (105 <= Zpos (digits2_pos (mx * my)) <= 106)%Z).
  { destruct (digits_bounds (mx * my)) as [B1 B2].
    remember (Zpos (digits2_pos (mx * my))) as d eqn:Ed. split.
    - destruct (Z_lt_le_dec d 105) as [H|H]; [| exact H].
      pose proof (Z.pow_le_mono_r 2 d 104). lia.
    - destruct (Z_lt_le_dec 106 d) as [H|H]; [| exact H].
      pose proof (Z.pow_le_mono_r 2 106 (d - 1)). lia. }
  destruct (round_value false (Zpos (mx * my)) (ex + ey) loc_Exact
              (inject_Z (Zpos (mx * my)) * 2 ^ (ex + ey)))
    as (mz & ez & E & Bm & Bz & W).
  - lia.
  - cbn [Zdigits2]. lia.
  - cbn [Zdigits2]. lia.
  - apply Qle_refl.
  - apply Qmult_lt_compat_r; [apply pow2_pos |]. rewrite <- Zlt_Qlt. lia.
  - exists mz, ez. split; [exact E |]. split; [exact Bm |].
    split; [cbn [Zdigits2] in Bz; lia |].
    assert (EX : (inject_Z (Zpos mx) * 2 ^ ex) * (inject_Z (Zpos my) * 2 ^ ey)
                 == inject_Z (Zpos (mx * my)) * 2 ^ (ex + ey)).
    { rewrite Pos2Z.inj_mul, inject_Z_mult, pow2_add. ring. }
    unfold within in *. rewrite EX. exact W.
Qed.

Lemma div_eucl_div_mod (a b : Z) : Z.div_eucl a b = (a / b, a mod b)%Z.
Proof. unfold Z.div, Z.modulo. now destruct (Z.div_eucl a b). Qed.

Lemma SFdiv_normal (mx my : positive) (ex ey : Z) :
  (2 ^ 52 <= Zpos mx < 2 ^ 53)%Z -> (2 ^ 52 <= Zpos my < 2 ^ 53)%Z ->
  (-1021 <= ex - ey <= 1022)%Z ->
  exists (mz : positive) (ez : Z),
    SFdiv prec emax (S754_finite false mx ex) (S754_finite false my ey)
    = S754_finite false mz ez
    /\ (2 ^ 52 <= Zpos mz < 2 ^ 53)%Z
    /\ (ex - ey - 53 <= ez <= ex - ey - 51)%Z
    /\ within (1 # 4503599627370496) (inject_Z (Zpos mz) * 2 ^ ez)
         ((inject_Z (Zpos mx) * 2 ^ ex) / (inject_Z (Zpos my) * 2 ^ ey)).
Proof.
  intros Bx By Be. cbn [SFdiv xorb].
  assert (C : SFdiv_core_binary prec emax (Zpos mx) ex (Zpos my) ey
              = ((Zpos mx * 2 ^ 53) / Zpos my, ex - ey - 53,
                 new_location (Zpos my) ((Zpos mx * 2 ^ 53) mod Zpos my))%Z).
  { unfold SFdiv_core_binary. cbn [Zdigits2].
    rewrite (digits_unique mx 53), (digits_unique my 53)
      by (change (2 ^ (53 - 1))%Z with (2 ^ 52)%Z; lia).
    unfold fexp, SpecFloat.emin.
    replace (Z.min (Z.max (53 + ex - (53 + ey) - prec) (3 - emax - prec)) (ex - ey))
      with (ex - ey - 53)%Z by (unfold prec, emax; lia).
    replace (ex - ey - (ex - ey - 53))%Z with 53%Z by lia.
    cbv iota. rewrite Z.shiftl_mul_pow2 by lia. rewrite div_eucl_div_mod. reflexivity. }
  rewrite C. clear C.
  remember (Zpos mx * 2 ^ 53)%Z as a eqn:Ea.
  remember (a / Zpos my)%Z as q eqn:Eq.
  assert (Bq : (2 ^ 52 <= q < 2 ^ 54)%Z).
  { rewrite Eq.
    split; [apply Z.div_le_lower_bound | apply Z.div_lt_upper_bound]; lia. }
  assert (F1 : (Zpos my * q <= a)%Z) by (rewrite Eq; apply Z.mul_div_le; lia).
  assert (F2 : (a < Zpos my * (q + 1))%Z).
  { rewrite Eq. apply (Z.mul_succ_div_gt a (Zpos my)). lia. }
  destruct q as [|pq|pq]; [lia | | lia].
  assert (Dq : (53 <= Zpos (digits2_pos pq) <= 54)%Z).
  { destruct (digits_bounds pq) as [B1 B2].
    remember (Zpos (digits2_pos pq)) as d eqn:Ed. split.
    - destruct (Z_lt_le_dec d 53) as [H|H]; [| exact H].
      pose proof (Z.pow_le_mono_r 2 d 52). lia.
    - destruct (Z_lt_le_dec 54 d) as [H|H]; [| exact H].
      pose proof (Z.pow_le_mono_r 2 54 (d - 1)). lia. }
  assert (Pb : 0 < inject_Z (Zpos my)) by (change 0 with (inject_Z 0); rewrite <- Zlt_Qlt; lia).
  assert (EX : (inject_Z (Zpos mx) * 2 ^ ex) / (inject_Z (Zpos my) * 2 ^ ey)
               == (inject_Z a / inject_Z (Zpos my)) * 2 ^ (ex - ey - 53)).
  { rewrite Ea, inject_Z_mult, pow2_inject by lia.
    replace ex with (53 + (ex - ey - 53) + ey)%Z at 1 by lia.
    rewrite !pow2_add.
    pose proof (pow2_pos ey). field. split; lra. }
  destruct (round_value false (Zpos pq) (ex - ey - 53)
              (new_location (Zpos my) (a mod Zpos my))
              ((inject_Z (Zpos mx) * 2 ^ ex) / (inject_Z (Zpos my) * 2 ^ ey)))
    as (mz & ez & E & Bm & Bz & W).
  - lia.
  - cbn [Zdigits2]. lia.
  - cbn [Zdigits2]. lia.
  - rewrite EX. apply Qmult_le_compat_r; [| apply Qlt_le_weak, pow2_pos].
    apply Qle_shift_div_l; [exact Pb |].
    rewrite <- inject_Z_mult, <- Zle_Qle. lia.
  - rewrite EX. apply Qmult_lt_compat_r; [apply pow2_pos |].
    apply Qlt_shift_div_r; [exact Pb |].
    rewrite <- inject_Z_mult, <- Zlt_Qlt. lia.
  - exists mz, ez. split; [exact E |]. split; [exact Bm |].
    split; [cbn [Zdigits2] in Bz; lia | exact W].
Qed.


(** *** The primitive operations *)

Lemma F2Q_normal (x : float) (e : Z) : normal x e -> 0 < F2Q x.
Proof.
  intros [m [E _]]. unfold F2Q. rewrite E. cbn [SF2Q].
  apply Qmult_lt_0_compat; [| apply pow2_pos].
  change 0 with (inject_Z 0). rewrite <- Zlt_Qlt. lia.
Qed.

Lemma mul_normal (x y : float) (ex ey : Z) :
  normal x ex -> normal y ey -> (-1126 <= ex + ey <= 917)%Z ->
  exists ez : Z,
    normal (x * y)%float ez
    /\ (ex + ey + 52 <= ez <= ex + ey + 54)%Z
    /\ within (1 # 4503599627370496) (F2Q (x * y)%float) (F2Q x * F2Q y).
Proof.
  intros [mx [Ex Bx]] [my [Ey By]] Be.
  destruct (SFmul_normal mx my ex ey Bx By Be) as (mz & ez & E & Bm & Bz & W).
  exists ez. unfold normal, F2Q. rewrite mul_spec, Ex, Ey. unfold SF64mul.
  rewrite E. cbn [SF2Q]. split; [exists mz; split; [reflexivity | exact Bm] |]. split; [exact Bz | exact W].
Qed.

Lemma div_normal (x y : float) (ex ey : Z) :
  normal x ex -> normal y ey -> (-1021 <= ex - ey <= 1022)%Z ->
  exists ez : Z,
    normal (x / y)%float ez
    /\ (ex - ey - 53 <= ez <= ex - ey - 51)%Z
    /\ within (1 # 4503599627370496) (F2Q (x / y)%float) (F2Q x / F2Q y).
Proof.
  intros [mx [Ex Bx]] [my [Ey By]] Be.
  destruct (SFdiv_normal mx my ex ey Bx By Be) as (mz & ez & E & Bm & Bz & W).
  exists ez. unfold normal, F2Q. rewrite div_spec, Ex, Ey. unfold SF64div.
  rewrite E. cbn [SF2Q]. split; [exists mz; split; [reflexivity | exact Bm] |]. split; [exact Bz | exact W].
Qed.

(** A binary64 between [2^-800] and [2^800] is a positive normal number. *)
Lemma range_normal (v : float) :
  (0x1p-800 <=? v)%float = true -> (v <=? 0x1p800)%float = true ->
  exists e : Z, normal v e /\ (-852 <= e <= 748)%Z.
Proof.
  intros L U. rewrite leb_spec in L, U.
  assert (Elo : Prim2SF 0x1p-800 = S754_finite false 4503599627370496 (-852))
    by (vm_compute; reflexivity).
  assert (Ehi : Prim2SF 0x1p800 = S754_finite false 4503599627370496 748)
    by (vm_compute; reflexivity).
  rewrite Elo in L. rewrite Ehi in U. clear Elo Ehi.
  pose proof (Prim2SF_valid v) as V.
  destruct (Prim2SF v) as [s|s| |s m e] eqn:Ev; try discriminate L.
  - destruct s; [discriminate L | discriminate U].
  - destruct s; [discriminate L |].
    unfold SFleb, SFcompare in L, U.
    assert (Le : (-852 <= e)%Z).
    { destruct (Z.compare_spec (-852) e); [lia | lia | discriminate L]. }
    assert (Ue : (e <= 748)%Z).
    { destruct (Z.compare_spec e 748); [lia | lia | discriminate U]. }
    exists e. split; [| lia]. exists m. split; [exact Ev |].
    unfold valid_binary, bounded, canonical_mantissa, fexp, SpecFloat.emin in V.
    apply andb_true_iff in V. destruct V as [V _]. apply Z.eqb_eq in V.
    unfold prec, emax in V.
    assert (D : Zpos (digits2_pos m) = 53%Z) by lia.
    pose proof (digits_bounds m) as B. rewrite D in B. exact B.
Qed.

(** *** Relative bounds *)

Lemma between_mul (lo hi a b c : Q) :
  between lo hi a b -> 0 < c -> between lo hi (a * c) (b * c).
Proof.
  unfold between. intros [L U] P. split.
  - setoid_replace (b * c * lo) with (b * lo * c) by ring.
    apply Qmult_le_compat_r; [exact L | now apply Qlt_le_weak].
  - setoid_replace (b * c * hi) with (b * hi * c) by ring.
    apply Qmult_le_compat_r; [exact U | now apply Qlt_le_weak].
Qed.

Lemma between_div (lo hi a b c : Q) :
  between lo hi a b -> 0 < c -> between lo hi (a / c) (b / c).
Proof.
  intros B P. unfold Qdiv. apply between_mul; [exact B |].
  now apply Qinv_lt_0_compat.
Qed.

Lemma between_trans (l1 h1 l2 h2 a b c : Q) :
  between l1 h1 a b -> between l2 h2 b c -> 0 <= l1 -> 0 <= h1 ->
  between (l2 * l1) (h2 * h1) a c.
Proof.
  unfold between. intros [L1 U1] [L2 U2] P1 P2. split.
  - eapply Qle_trans; [| exact L1]. rewrite Qmult_assoc.
    now apply Qmult_le_compat_r.
  - eapply Qle_trans; [exact U1 |]. rewrite Qmult_assoc.
    now apply Qmult_le_compat_r.
Qed.

Lemma between_eq (lo hi a b b' : Q) :
  between lo hi a b -> b == b' -> between lo hi a b'.
Proof. unfold between. intros B E. now rewrite <- E. Qed.

Lemma between_weaken (lo hi lo' hi' a b : Q) :
  between lo hi a b -> 0 <= b -> lo' <= lo -> hi <= hi' -> between lo' hi' a b.
Proof.
  unfold between. intros [L U] P Hl Hh. split.
  - eapply Qle_trans; [| exact L]. rewrite !(Qmult_comm b).
    now apply Qmult_le_compat_r.
  - eapply Qle_trans; [exact U |]. rewrite !(Qmult_comm b).
    now apply Qmult_le_compat_r.
Qed.


Lemma between_ratio (l1 h1 l2 h2 a b X : Q) :
  between l1 h1 a X -> between l2 h2 b X ->
  0 <= l1 -> 0 <= h1 -> 0 < l2 -> 0 < h2 ->
  between (l1 / h2) (h1 / l2) a b.
Proof.
  unfold between. intros [La Ua] [Lb Ub] P1 P2 P3 P4. split.
  - eapply Qle_trans; [| exact La].
    setoid_replace (b * (l1 / h2)) with ((b / h2) * l1) by (field; lra).
    apply Qmult_le_compat_r; [| exact P1].
    apply Qle_shift_div_r; [exact P4 | exact Ub].
  - eapply Qle_trans; [exact Ua |].
    setoid_replace (b * (h1 / l2)) with ((b / l2) * h1) by (field; lra).
    apply Qmult_le_compat_r; [| exact P2].
    apply Qle_shift_div_l; [exact P3 | exact Lb].
Qed.

(** *** A value through two conversions *)

(** [v * fa / fb] on binary64, for a value and two factors in the ranges
    of the table. *)
Lemma scale_floats (v fa fb : float) (ev ea eb : Z) :
  normal v ev -> normal fa ea -> normal fb eb ->
  (-1000 <= ev <= 900)%Z -> (-80 <= ea <= -40)%Z -> (-80 <= eb <= -40)%Z ->
  exists e : Z,
    normal (v * fa / fb)%float e
    /\ (ev - 41 <= e <= ev + 43)%Z
    /\ between ((1 - (1 # 4503599627370496)) * (1 - (1 # 4503599627370496)))
         ((1 + (1 # 4503599627370496)) * (1 + (1 # 4503599627370496)))
         (F2Q (v * fa / fb)%float) (F2Q v * F2Q fa / F2Q fb).
Proof.
  intros Nv Na Nb Bv Ba Bb.
  destruct (mul_normal v fa ev ea Nv Na) as (e1 & N1 & B1 & W1); [lia |].
  destruct (div_normal (v * fa)%float fb e1 eb N1 Nb) as (e2 & N2 & B2 & W2); [lia |].
  exists e2. split; [exact N2 |]. split; [lia |].
  pose proof (F2Q_normal fb eb Nb) as Pb.
  refine (between_trans _ _ _ _ _ _ _ W2 (between_div _ _ _ _ _ W1 Pb) _ _);
    apply Qle_bool_imp_le; vm_compute; reflexivity.
Qed.

Lemma round_trip_floats (v fa fb : float) (ev ea eb : Z) :
  normal v ev -> normal fa ea -> normal fb eb ->
  (-852 <= ev <= 748)%Z -> (-80 <= ea <= -40)%Z -> (-80 <= eb <= -40)%Z ->
  within (2 ^ (-49)) (F2Q (v * fa / fb * fb / fa)%float) (F2Q v).
Proof.
  intros Nv Na Nb Bv Ba Bb.
  destruct (scale_floats v fa fb ev ea eb Nv Na Nb) as (e1 & N1 & B1 & W1);
    [lia | lia | lia |].
  destruct (scale_floats (v * fa / fb)%float fb fa e1 eb ea N1 Nb Na)
    as (e2 & N2 & B2 & W2); [lia | lia | lia |].
  pose proof (F2Q_normal v ev Nv) as Pv.
  pose proof (F2Q_normal fa ea Na) as Pa.
  pose proof (F2Q_normal fb eb Nb) as Pb.
  pose proof (between_trans _ _ _ _ _ _ _ W2
                (between_div _ _ _ _ _ (between_mul _ _ _ _ _ W1 Pb) Pa)) as W.
  assert (E : F2Q v * F2Q fa / F2Q fb * F2Q fb / F2Q fa == F2Q v) by (field; lra).
  assert (P1 : 0 <= (1 - (1 # 4503599627370496)) * (1 - (1 # 4503599627370496)))
    by (apply Qle_bool_imp_le; vm_compute; reflexivity).
  assert (P2 : 0 <= (1 + (1 # 4503599627370496)) * (1 + (1 # 4503599627370496)))
    by (apply Qle_bool_imp_le; vm_compute; reflexivity).
  pose proof (between_eq _ _ _ _ _ (W P1 P2) E) as W'.
  unfold within.
  apply (between_weaken _ _ _ _ _ _ W');
    [now apply Qlt_le_weak | |]; apply Qle_bool_imp_le; vm_compute; reflexivity.
Qed.


(** *** The factors of the table *)

Lemma normal_in_normal (lo hi : Z) (x : float) :
  normal_in lo hi x = true -> exists e : Z, normal x e /\ (lo <= e <= hi)%Z.
Proof.
  unfold normal_in, normal.
  destruct (Prim2SF x) as [s|s| |s m e]; try discriminate.
  destruct s; [discriminate |]. intros H.
  apply andb_true_iff in H. destruct H as [H H4].
  apply andb_true_iff in H. destruct H as [H H3].
  apply andb_true_iff in H. destruct H as [H1 H2].
  apply Z.leb_le in H1, H3, H4. apply Z.ltb_lt in H2.
  exists e. split; [| lia]. exists m. split; [reflexivity | lia].
Qed.

(** Every factor of the table is a normal binary64 between [2^-28] and
    [2^13]. *)
Lemma float_factor_normal (category : string) (cfg : category_cfg float)
  (unit : string) (u : unit_cfg float) (f : float) :
  get UNITS_CONFIG category = Some cfg -> category <> "temperature"%string ->
  get (units cfg) unit = Some u -> factor u = Some f ->
  exists e : Z, normal f e /\ (-80 <= e <= -40)%Z.
Proof.
  intros E N U F. apply normal_in_normal.
  destruct (ConvertFacts.known_category _ _ E) as [-> | [-> | [-> | ->]]];
    try (now elim N);
    cbv [get UNITS_CONFIG String.eqb Ascii.eqb Bool.eqb] in E;
    injection E as <-; cbn [units get] in U;
    repeat match type of U with
           | (if String.eqb ?a ?b then _ else _) = _ =>
               destruct (String.eqb a b);
               [injection U as <-; injection F as <-; vm_compute; reflexivity |]
           end;
    discriminate.
Qed.

End FloatFacts.

(** ** The history *)

Module HistoryFacts.
Import RequestHandler.

Section WithHandler.
Context {A : Type} `{Arith A}.
Variable parse_float : string -> option A.
Variable format_4f : A -> string.
Variable repr_float : float -> string.
Variable uni_word : string -> nat.
Variable template : template_file.

Lemma send_keeps (ctx : context) (h : list record) :
  fst (_send_response repr_float uni_word template ctx h) = h.
Proof. reflexivity. Qed.

Lemma then_send {T : Type} (m : M T) (k : T -> context) (h : list record) :
  fst (mbind m (fun x => _send_response repr_float uni_word template (k x)) h) = fst (m h).
Proof.
  unfold mbind. destruct (m h) as [h' [x|e]]; reflexivity.
Qed.

(** What a POST request does to the history. *)
Lemma do_POST_history (data : list (string * string)) (h : list record) :
  fst (do_POST parse_float format_4f repr_float uni_word template data h)
  = match conversion_of parse_float format_4f data with
    | Some e => fst (cap (h ++ [e])%list)
    | None => h
    end.
Proof.
  unfold do_POST. unfold mbind at 1. cbn [read].
  rewrite then_send.
  unfold conversion_of.
  destruct (String.eqb (field data "action" "convert") "swap") eqn:Sw.
  - apply String.eqb_eq in Sw. rewrite Sw. reflexivity.
  - destruct (String.eqb (field data "action" "convert") "convert"); [| reflexivity].
    destruct (parse_float (field data "amount" "0")) as [val|]; [| reflexivity].
    unfold mbind, lift, units_of, item.
    destruct (ConverterService.convert _ val _ _) as [[res|]|e]; try reflexivity.
    destruct (get UNITS_CONFIG _) as [cfg|]; [| reflexivity].
    destruct (get (units cfg) (field data "unit_from" "")) as [uf|]; [| reflexivity].
    destruct (get (units cfg) (field data "unit_to" "")) as [ut|]; reflexivity.
Qed.




End WithHandler.
End HistoryFacts.

(** * The template engine: loops, conditionals, scalars *)

Import StrFacts MarkerFacts SubstFacts ReFacts ScanFacts.

Lemma get_present {V : Type} (d : list (string * V)) (k : string) (v : V) :
  In (k, v) d -> get d k <> None.
Proof.
  induction d as [|[j w] d IH]; intros I; [destruct I |].
  simpl. destruct (String.eqb j k) eqn:E; [discriminate |].
  destruct I as [I|I]; [| now apply IH].
  injection I as -> _. rewrite String.eqb_refl in E. discriminate.
Qed.

Lemma loop_stage_block (uni_word : string -> nat) (repr_float : float -> string)
  (ctx : context)
  (k body else_body post : string) :
  is_name k ->
  occurs "{% else %}" body = false ->
  occurs "{% endfor %}" else_body = false ->
  TemplateEngine.loop_stage uni_word repr_float ctx (loop_block k body else_body ++ post)
  = (out <- TemplateEngine.loop_replacer repr_float ctx (k, body, else_body) ;;
     rest <- TemplateEngine.loop_stage uni_word repr_float ctx post ;;
     Ret (out ++ rest)).
Proof.
  intros Nk Ob Oe. unfold TemplateEngine.loop_stage.
  apply sub_match; [discriminate |].
  now apply loop_pattern_block.
Qed.

Lemma if_stage_block (uni_word : string -> nat) (ctx : context)
  (k body post : string) :
  is_name k ->
  occurs "{% endif %}" body = false ->
  TemplateEngine.if_stage uni_word ctx (if_block k body ++ post)
  = (out <- TemplateEngine.if_replacer ctx (k, body) ;;
     rest <- TemplateEngine.if_stage uni_word ctx post ;;
     Ret (out ++ rest)).
Proof.
  intros Nk Ob. unfold TemplateEngine.if_stage.
  apply sub_match; [discriminate |].
  now apply if_pattern_block.
Qed.

Lemma get_in_nodup {V : Type} (d : list (string * V)) (k : string) (v : V) :
  NoDup (map fst d) -> In (k, v) d -> get d k = Some v.
Proof.
  induction d as [|[j w] d IH]; intros D I; [destruct I |].
  inversion D as [|? ? Nj D']; subst. simpl.
  destruct I as [I|I].
  - injection I as -> ->. now rewrite String.eqb_refl.
  - destruct (String.eqb_spec j k) as [->|_]; [| now apply IH].
    elim Nj. change k with (fst (k, v)). now apply in_map.
Qed.









(** C2, as the code has it.  Stage 3 on a text made of markers [{{ key }}]
    and of stretches in which no marker starts, for a context (a dict: its
    keys differ) whose scalar keys hold no opening brace and no blank and
    whose scalar values have a string form in which no marker starts: every
    marker of a key whose value is a string, an integer, a float or a boolean
    is replaced by the string form of the value ([True] or [False] for a
    boolean, which is an [int] for [isinstance]); every marker of a key
    whose value is a sequence, or that the context does not have, stays as it
    is.  Such a marker stays in any text, and the texts on its two sides are
    treated apart. *)
Theorem C2_scalar_stage (repr_float : float -> string) (ctx : context)
  (segs : list seg) :
  NoDup (map fst ctx) ->
  (forall k x, In (k, VScalar x) ctx ->
               plain_key k /\ inert (TemplateEngine.str repr_float x) = true) ->
  Forall well_formed_seg segs ->
  TemplateEngine.scalar_stage repr_float ctx (text_of segs)
  = flat (map (expand repr_float ctx) segs)
  /\ (forall k b, get ctx k = Some (VScalar (SBool b)) ->
                  expand repr_float ctx (Var k) = if b then "True" else "False")
  /\ (forall k p q, plain_key k ->
        (forall x, get ctx k <> Some (VScalar x)) ->
        TemplateEngine.scalar_stage repr_float ctx (p ++ TemplateEngine.marker k ++ q)
        = TemplateEngine.scalar_stage repr_float ctx p
          ++ TemplateEngine.marker k
          ++ TemplateEngine.scalar_stage repr_float ctx q).
Proof.
  intros D P W. split; [| split].
  - now apply scalar_stage_segs.
  - intros k b E. cbn [expand]. rewrite E. now destruct b.
  - intros k p q Pk Nk. apply scalar_stage_around; [exact Pk |].
    intros j x I. split; [apply (P j x I) |].
    intros ->. apply (Nk x). now apply get_in_nodup.
Qed.

Lemma C2_scalar_stage_witness :
  TemplateEngine.scalar_stage (fun _ => "")
    [ ("result", VScalar (SStr "42")); ("flag", VScalar (SBool true));
      ("history", VList []) ]
    "a { b {{ result }}/{{ flag }}{{ history }}{{ missing }}"
  = "a { b 42/True{{ history }}{{ missing }}".
Proof.
  assert (D : NoDup (map fst
            [ ("result", VScalar (SStr "42")); ("flag", VScalar (SBool true));
              ("history", VList ([] : list record)) ])).
  { repeat constructor; simpl; intuition discriminate. }
  assert (W : Forall well_formed_seg
            [ Lit "a { b "; Var "result"; Lit "/"; Var "flag"; Var "history";
              Var "missing" ]).
  { repeat constructor. }
  assert (P : forall k x,
            In (k, VScalar x)
              [ ("result", VScalar (SStr "42")); ("flag", VScalar (SBool true));
                ("history", VList []) ] ->
            plain_key k /\ inert (TemplateEngine.str (fun _ => "") x) = true).
  { intros k x [E|[E|[E|[]]]]; inversion E; subst; repeat split. }
  destruct (C2_scalar_stage (fun _ => "") _ _ D P W) as [T _].
  exact T.
Defined.

(** C2, as the spec has it, fails on a boolean: stage 3 puts [True] where the
    claim leaves the marker of the key. *)
Lemma C2_boolean_is_substituted :
  TemplateEngine.scalar_stage (fun _ => "") [("flag", VScalar (SBool true))]
    "{{ flag }}" = "True"
  /\ TemplateEngine.scalar_stage (fun _ => "") [("flag", VScalar (SBool true))]
       "{{ flag }}" <> "{{ flag }}".
Proof. split; [vm_compute; reflexivity | vm_compute; discriminate]. Qed.



(** C9, as the code has it.  When the template file does not exist, [render]
    gives the same error fragment for every context and raises nothing. *)
Theorem C9_missing_template (uni_word : string -> nat)
  (repr_float : float -> string) (ctx : context) :
  TemplateEngine.render uni_word repr_float Missing ctx
  = Ret "<h1>Error: Template file not found.</h1>".
Proof. reflexivity. Qed.

(** C9, as the spec has it, fails on a file that exists and cannot be read:
    [render] only tests that the file exists, and the [open] that follows
    raises to the caller. *)
Lemma C9_unreadable_raises :
  TemplateEngine.render (fun _ => 0) (fun _ => "") Unreadable [] = Raise OSError
  /\ TemplateEngine.render (fun _ => 0) (fun _ => "") Unreadable []
     <> Ret TemplateEngine.error_fragment.
Proof. split; [reflexivity | discriminate]. Qed.

(** * The converter *)

Import ConvertFacts.

(** C3.  On the category [temperature], [convert] never gives the not-found
    value: it gives [g (c v f) t], where [c] takes the value to Celsius ([v]
    for [c], [(v - 32) * 5 / 9] for [f], [v - 273.15] for [k], [v] for any
    other code) and [g] takes Celsius to the target ([cel] for [c],
    [cel * 9 / 5 + 32] for [f], [cel + 273.15] for [k], [cel] for any other
    code).  This holds in any arithmetic; on binary64 and on the rationals
    0 C is 32 F, 32 F is 0 C and 0 C is 273.15 K. *)
Theorem C3_temperature {A : Type} `{Arith A} (v : A) (f t : string) :
  ConverterService.convert "temperature" v f t
  = Ret (Some (from_celsius (to_celsius v f) t))
  /\ ConverterService.convert (A:=float) "temperature" 0%float "c" "f"
     = Ret (Some 32%float)
  /\ ConverterService.convert (A:=float) "temperature" 32%float "f" "c"
     = Ret (Some 0%float)
  /\ ConverterService.convert (A:=float) "temperature" 0%float "c" "k"
     = Ret (Some (lit 27315 2))
  /\ gives (ConverterService.convert "temperature" 0%Q "c" "f") 32%Q
  /\ gives (ConverterService.convert "temperature" 32%Q "f" "c") 0%Q
  /\ gives (ConverterService.convert "temperature" 0%Q "c" "k") (27315 # 100)%Q.
Proof.
  split; [| repeat split; vm_compute; reflexivity].
  rewrite convert_temperature, temp_as_spec. reflexivity.
Qed.

(** C4.  [convert] gives the not-found value for a category that the table
    does not have.  For a category of the table other than [temperature] it
    gives the not-found value exactly when the unit mapping of the category
    lacks [from_unit] or [to_unit], and [v * factor[from_unit] /
    factor[to_unit]] otherwise.  One kilometre is 1000 metres. *)
Theorem C4_linear {A : Type} `{Arith A} (category : string) (v : A)
  (from_unit to_unit : string) :
  (units_of (A:=A) category = None ->
   ConverterService.convert category v from_unit to_unit = Ret None)
  /\ (forall us, units_of (A:=A) category = Some us -> category <> "temperature" ->
      (ConverterService.convert category v from_unit to_unit = Ret None
       <-> get us from_unit = None \/ get us to_unit = None)
      /\ (get us from_unit <> None -> get us to_unit <> None ->
          exists ff ft,
            factor_of category from_unit = Some ff
            /\ factor_of category to_unit = Some ft
            /\ ConverterService.convert category v from_unit to_unit
               = Ret (Some (div (mul v ff) ft))))
  /\ ConverterService.convert (A:=float) "length" 1%float "km" "m"
     = Ret (Some 1000%float)
  /\ gives (ConverterService.convert "length" 1%Q "km" "m") 1000%Q.
Proof.
  split; [| split; [| split; vm_compute; reflexivity]].
  - unfold units_of. intros E. apply convert_unknown_category.
    destruct (get UNITS_CONFIG category); [discriminate | reflexivity].
  - unfold units_of. intros us E N.
    destruct (get UNITS_CONFIG category) as [cfg|] eqn:G; [| discriminate].
    injection E as <-.
    rewrite (convert_linear category cfg v from_unit to_unit G N).
    destruct (get (units cfg) from_unit) as [uf|] eqn:Gf.
    2: { split; [split; [intros _; now left | reflexivity] | intros X; now elim X]. }
    destruct (get (units cfg) to_unit) as [ut|] eqn:Gt.
    2: { split; [split; [intros _; now right | reflexivity] | intros _ X; now elim X]. }
    destruct (linear_factor _ _ _ _ G N Gf) as [ff [Ff Ef]].
    destruct (linear_factor _ _ _ _ G N Gt) as [ft [Ft Et]].
    rewrite Ff, Ft. split.
    + split; [discriminate | intros [X|X]; discriminate].
    + intros _ _. exists ff, ft. now repeat split.
Qed.

(** C5, as the code has it.  On binary64, for a category of the table other
    than [temperature], two units [a] and [b] of its mapping and a value [v]
    between [2^-800] and [2^800]: converting from [a] to [b] and back
    returns a number within the relative distance [2^-49] of [v].  The
    numbers are compared as the rationals they stand for; each of the four
    operations rounds once, and none leaves the normal range. *)
Theorem C5_round_trip (category a b : string) (us : list (string * unit_cfg float))
  (v : float) :
  units_of category = Some us -> category <> "temperature" ->
  get us a <> None -> get us b <> None ->
  (0x1p-800 <=? v)%float = true -> (v <=? 0x1p800)%float = true ->
  exists r1 r2 : float,
    ConverterService.convert category v a b = Ret (Some r1)
    /\ ConverterService.convert category r1 b a = Ret (Some r2)
    /\ (0 < F2Q v)%Q
    /\ within (2 ^ (-49))%Q (F2Q r2) (F2Q v).
Proof.
  unfold units_of. intros E N Ha Hb Lv Uv.
  destruct (get UNITS_CONFIG category) as [cfg|] eqn:G; [| discriminate].
  injection E as <-.
  destruct (get (units cfg) a) as [ua|] eqn:Ga; [| now elim Ha].
  destruct (get (units cfg) b) as [ub|] eqn:Gb; [| now elim Hb].
  destruct (linear_factor _ _ _ _ G N Ga) as [fa [Fa _]].
  destruct (linear_factor _ _ _ _ G N Gb) as [fb [Fb _]].
  exists (div (mul v fa) fb), (div (mul (div (mul v fa) fb) fb) fa).
  rewrite !(convert_linear category cfg _ _ _ G N), Ga, Gb, Fa, Fb.
  split; [reflexivity |]. split; [reflexivity |].
  destruct (FloatFacts.range_normal v Lv Uv) as [ev [Nv Bv]].
  destruct (FloatFacts.float_factor_normal _ _ _ _ _ G N Ga Fa) as [ea [Na Ba]].
  destruct (FloatFacts.float_factor_normal _ _ _ _ _ G N Gb Fb) as [eb [Nb Bb]].
  split; [exact (FloatFacts.F2Q_normal v ev Nv) |].
  exact (FloatFacts.round_trip_floats v fa fb ev ea eb Nv Na Nb Bv Ba Bb).
Qed.

Lemma C5_round_trip_witness :
  exists r1 r2 : float,
    ConverterService.convert "length" 1%float "km" "miles" = Ret (Some r1)
    /\ ConverterService.convert "length" r1 "miles" "km" = Ret (Some r2)
    /\ (0 < F2Q 1%float)%Q
    /\ within (2 ^ (-49))%Q (F2Q r2) (F2Q 1%float).
Proof.
  eapply (C5_round_trip "length" "km" "miles" _ 1%float).
  - reflexivity.
  - discriminate.
  - vm_compute. discriminate.
  - vm_compute. discriminate.
  - reflexivity.
  - reflexivity.
Defined.

(** C5, as the spec has it, fails on binary64 at both ends of the range.
    1e306 kilometres in millimetres overflows to infinity, and the way back
    stays at infinity, which no tolerance brings close to 1e306.  The
    smallest positive number, in millimetres, is 0 kilometres, and the way
    back stays at 0. *)
#[warnings="-inexact-float"]
Lemma C5_out_of_range :
  ConverterService.convert (A:=float) "length" 1e306%float "km" "mm"
  = Ret (Some infinity)
  /\ ConverterService.convert (A:=float) "length" infinity "mm" "km"
     = Ret (Some infinity)
  /\ (forall tol : float, close tol infinity 1e306%float = false)
  /\ (0 <? 1e306)%float = true
  /\ ConverterService.convert (A:=float) "length" 0x1p-1074%float "mm" "km"
     = Ret (Some 0%float)
  /\ ConverterService.convert (A:=float) "length" 0%float "km" "mm"
     = Ret (Some 0%float)
  /\ (0 <? 0x1p-1074)%float = true
  /\ close 0x1p-30 0%float 0x1p-1074%float = false.
Proof.
  repeat split; vm_compute; reflexivity.
Qed.

(** * The history *)

Import HistoryFacts.




(** C8, as the code has it.  A request that names a category outside the
    table, or a category of the table other than [temperature] with a unit
    that the category does not have: [convert] gives the not-found value
    and raises nothing, and the history after the request is the history
    before it. *)
Theorem C8_not_found {A : Type} `{Arith A}
  (parse_float : string -> option A) (format_4f : A -> string)
  (repr_float : float -> string) (uni_word : string -> nat)
  (template : template_file)
  (data : list (string * string)) (h : list record) :
  unknown (A:=A) (RequestHandler.field data "category" "length")
    (RequestHandler.field data "unit_from" "")
    (RequestHandler.field data "unit_to" "") ->
  RequestHandler.field data "category" "length" <> "temperature" ->
  (forall val : A,
     ConverterService.convert (RequestHandler.field data "category" "length") val
       (RequestHandler.field data "unit_from" "")
       (RequestHandler.field data "unit_to" "") = Ret None)
  /\ fst (RequestHandler.do_POST parse_float format_4f repr_float uni_word template data h) = h.
Proof.
  intros U N.
  assert (C : forall val : A,
            ConverterService.convert (RequestHandler.field data "category" "length") val
              (RequestHandler.field data "unit_from" "")
              (RequestHandler.field data "unit_to" "") = Ret None).
  { intros val. unfold unknown, units_of in U.
    destruct (get UNITS_CONFIG (RequestHandler.field data "category" "length"))
      as [cfg|] eqn:G.
    - rewrite (convert_linear _ cfg val _ _ G N).
      destruct U as [-> | U]; [reflexivity |].
      rewrite U.
      destruct (get (units cfg) (RequestHandler.field data "unit_from" ""));
        reflexivity.
    - now apply convert_unknown_category. }
  split; [exact C |].
  rewrite do_POST_history. unfold conversion_of.
  destruct (String.eqb _ "convert"); [| reflexivity].
  destruct (parse_float _) as [val|]; [| reflexivity].
  now rewrite C.
Qed.

Lemma C8_not_found_witness :
  fst (RequestHandler.do_POST (A:=Q)
         (fun _ => Some 1%Q) (fun _ => "1000.0000") (fun _ => "") (fun _ => 0) Missing
         [("category", "length"); ("amount", "1"); ("unit_from", "km"); ("unit_to", "kg")]
         [ [("n", SInt 1)] ])
  = [ [("n", SInt 1)] ].
Proof.
  apply (C8_not_found (A:=Q) (fun _ => Some 1%Q) (fun _ => "1000.0000")
           (fun _ => "") (fun _ => 0) Missing
           [("category", "length"); ("amount", "1"); ("unit_from", "km");
            ("unit_to", "kg")]).
  - right. reflexivity.
  - discriminate.
Defined.

(** C8, as the spec has it, fails on [temperature]: for a unit code that the
    category does not have, [convert] falls back to Celsius and gives a
    value, not the not-found value. *)
Lemma C8_temperature_fallback :
  unknown (A:=Q) "temperature" "x" "c"
  /\ ConverterService.convert "temperature" 5%Q "x" "c" = Ret (Some 5%Q)
  /\ ConverterService.convert "temperature" 5%Q "x" "c" <> Ret None.
Proof. split; [left; reflexivity | split; [reflexivity | discriminate]]. Qed.

(** * Further properties of the converter *)

Module ConvertMore.
Import ConverterService ConvertFacts.

(** X1.  [convert] never raises: the units of [temperature], the only ones
    without a factor, never reach the lookup of a factor.  For every input
    it returns a value or the not-found value. *)
Theorem X1_convert_never_raises {A : Type} `{Arith A} (category : string) (v : A)
  (from_unit to_unit : string) :
  exists o : option A, convert category v from_unit to_unit = Ret o.
Proof.
  destruct (get (UNITS_CONFIG (A:=A)) category) as [cfg|] eqn:G.
  - destruct (string_dec category "temperature") as [->|N].
    + eexists. apply convert_temperature.
    + rewrite (convert_linear category cfg v from_unit to_unit G N).
      destruct (get (units cfg) from_unit) as [uf|] eqn:Gf; [| now eexists].
      destruct (get (units cfg) to_unit) as [ut|] eqn:Gt; [| now eexists].
      destruct (linear_factor _ _ _ _ G N Gf) as [ff [-> _]].
      destruct (linear_factor _ _ _ _ G N Gt) as [ft [-> _]].
      now eexists.
  - eexists. now apply convert_unknown_category.
Qed.

(** What [convert] computes on binary64 between two units of a linear
    category: one product and one quotient, within [(1 +- 2^-52)^2] of the
    exact result, for a value in the normal range. *)
Lemma convert_scaled (category : string) (us : list (string * unit_cfg float))
  (a b : string) (v : float) (ev : Z) :
  units_of category = Some us -> category <> "temperature" ->
  get us a <> None -> get us b <> None ->
  normal v ev -> (-1000 <= ev <= 900)%Z ->
  exists (fa fb r : float) (ea eb e : Z),
    factor_of category a = Some fa /\ factor_of category b = Some fb
    /\ normal fa ea /\ normal fb eb /\ normal r e
    /\ (-80 <= ea <= -40)%Z /\ (-80 <= eb <= -40)%Z /\ (ev - 41 <= e <= ev + 43)%Z
    /\ convert category v a b = Ret (Some r)
    /\ between ((1 - (1 # 4503599627370496)) * (1 - (1 # 4503599627370496)))%Q
         ((1 + (1 # 4503599627370496)) * (1 + (1 # 4503599627370496)))%Q
         (F2Q r) (F2Q v * F2Q fa / F2Q fb)%Q.
Proof.
  unfold factor_of, units_of. intros E N Ha Hb Nv Bv.
  destruct (get UNITS_CONFIG category) as [cfg|] eqn:G; [| discriminate].
  injection E as <-.
  destruct (get (units cfg) a) as [ua|] eqn:Ga; [| now elim Ha].
  destruct (get (units cfg) b) as [ub|] eqn:Gb; [| now elim Hb].
  destruct (linear_factor _ _ _ _ G N Ga) as [fa [Fa _]].
  destruct (linear_factor _ _ _ _ G N Gb) as [fb [Fb _]].
  destruct (FloatFacts.float_factor_normal _ _ _ _ _ G N Ga Fa) as [ea [Na Ba]].
  destruct (FloatFacts.float_factor_normal _ _ _ _ _ G N Gb Fb) as [eb [Nb Bb]].
  destruct (FloatFacts.scale_floats v fa fb ev ea eb Nv Na Nb Bv Ba Bb)
    as (e & Nr & Be & W).
  exists fa, fb, (v * fa / fb)%float, ea, eb, e.
  rewrite (convert_linear category cfg _ _ _ G N), Ga, Gb, Fa, Fb.
  repeat (split; [first [reflexivity | assumption] |]). exact W.
Qed.

(** X2.  On binary64, in a category other than [temperature], converting a
    value between [2^-800] and [2^800] from a unit to the same unit returns
    a number within the relative distance [2^-50] of the value: the product
    by the factor and the quotient by it round once each. *)
Theorem X2_convert_same_unit (category : string) (us : list (string * unit_cfg float))
  (unit : string) (v : float) :
  units_of category = Some us -> category <> "temperature" ->
  get us unit <> None ->
  (0x1p-800 <=? v)%float = true -> (v <=? 0x1p800)%float = true ->
  exists r : float,
    convert category v unit unit = Ret (Some r)
    /\ within (2 ^ (-50))%Q (F2Q r) (F2Q v).
Proof.
  intros E N U Lv Uv.
  destruct (FloatFacts.range_normal v Lv Uv) as [ev [Nv Bv]].
  destruct (convert_scaled category us unit unit v ev E N U U Nv)
    as (fa & fb & r & ea & eb & e & Fa & Fb & Na & Nb & Nr & Ba & Bb & Be & C & W);
    [lia |].
  rewrite Fa in Fb. injection Fb as <-.
  exists r. split; [exact C |].
  pose proof (FloatFacts.F2Q_normal v ev Nv) as Pv.
  pose proof (FloatFacts.F2Q_normal fa ea Na) as Pa.
  assert (X : (F2Q v * F2Q fa / F2Q fa == F2Q v)%Q) by (field; lra).
  unfold within.
  apply (FloatFacts.between_weaken _ _ _ _ _ _ (FloatFacts.between_eq _ _ _ _ _ W X));
    [now apply Qlt_le_weak | |]; apply Qle_bool_imp_le; vm_compute; reflexivity.
Qed.

Lemma X2_convert_same_unit_witness :
  exists r : float,
    convert "length" 3%float "inches" "inches" = Ret (Some r)
    /\ within (2 ^ (-50))%Q (F2Q r) (F2Q 3%float).
Proof.
  eapply (X2_convert_same_unit "length" _ "inches" 3%float).
  - reflexivity.
  - discriminate.
  - vm_compute. discriminate.
  - reflexivity.
  - reflexivity.
Defined.

(** X4.  On binary64, in a category other than [temperature], conversions
    chain within a tolerance: for three units [a], [b] and [c] and a value
    between [2^-800] and [2^800], converting from [a] to [b] and then from
    [b] to [c] returns a number within the relative distance [2^-49] of
    what converting from [a] to [c] returns. *)
Theorem X4_convert_chain (category : string) (us : list (string * unit_cfg float))
  (a b c : string) (v : float) :
  units_of category = Some us -> category <> "temperature" ->
  get us a <> None -> get us b <> None -> get us c <> None ->
  (0x1p-800 <=? v)%float = true -> (v <=? 0x1p800)%float = true ->
  exists r1 r2 r3 : float,
    convert category v a b = Ret (Some r1)
    /\ convert category r1 b c = Ret (Some r2)
    /\ convert category v a c = Ret (Some r3)
    /\ within (2 ^ (-49))%Q (F2Q r2) (F2Q r3).
Proof.
  intros E N Ua Ub Uc Lv Uv.
  destruct (FloatFacts.range_normal v Lv Uv) as [ev [Nv Bv]].
  destruct (convert_scaled category us a b v ev E N Ua Ub Nv)
    as (fa & fb & r1 & ea & eb & e1 & Fa & Fb & Na & Nb & N1 & Ba & Bb & B1 & C1 & W1);
    [lia |].
  destruct (convert_scaled category us b c r1 e1 E N Ub Uc N1)
    as (fb' & fc & r2 & eb' & ec & e2 & Fb' & Fc & _ & Nc & N2 & _ & Bc & B2 & C2 & W2);
    [lia |].
  rewrite Fb in Fb'. injection Fb' as <-.
  destruct (convert_scaled category us a c v ev E N Ua Uc Nv)
    as (fa' & fc' & r3 & ea' & ec' & e3 & Fa' & Fc' & _ & _ & N3 & _ & _ & B3 & C3 & W3);
    [lia |].
  rewrite Fa in Fa'. injection Fa' as <-.
  rewrite Fc in Fc'. injection Fc' as <-.
  exists r1, r2, r3. split; [exact C1 |]. split; [exact C2 |]. split; [exact C3 |].
  pose proof (FloatFacts.F2Q_normal v ev Nv) as Pv.
  pose proof (FloatFacts.F2Q_normal fa ea Na) as Pa.
  pose proof (FloatFacts.F2Q_normal fb eb Nb) as Pb.
  pose proof (FloatFacts.F2Q_normal fc ec Nc) as Pc.
  pose proof (FloatFacts.F2Q_normal r3 e3 N3) as P3.
  assert (L : (0 <= (1 - (1 # 4503599627370496)) * (1 - (1 # 4503599627370496)))%Q)
    by (apply Qle_bool_imp_le; vm_compute; reflexivity).
  assert (H : (0 <= (1 + (1 # 4503599627370496)) * (1 + (1 # 4503599627370496)))%Q)
    by (apply Qle_bool_imp_le; vm_compute; reflexivity).
  pose proof (FloatFacts.between_trans _ _ _ _ _ _ _ W2
                (FloatFacts.between_div _ _ _ _ _
                   (FloatFacts.between_mul _ _ _ _ _ W1 Pb) Pc) L H) as W.
  assert (X : (F2Q v * F2Q fa / F2Q fb * F2Q fb / F2Q fc == F2Q v * F2Q fa / F2Q fc)%Q)
    by (field; lra).
  pose proof (FloatFacts.between_ratio _ _ _ _ _ _ _
                (FloatFacts.between_eq _ _ _ _ _ W X) W3) as R.
  unfold within.
  apply (FloatFacts.between_weaken _ _ _ _ _ _
           (R ltac:(apply Qle_bool_imp_le; vm_compute; reflexivity)
              ltac:(apply Qle_bool_imp_le; vm_compute; reflexivity)
              ltac:(reflexivity) ltac:(reflexivity)));
    [now apply Qlt_le_weak | |]; apply Qle_bool_imp_le; vm_compute; reflexivity.
Qed.

Lemma X4_convert_chain_witness :
  exists r1 r2 r3 : float,
    convert "length" 1%float "km" "miles" = Ret (Some r1)
    /\ convert "length" r1 "miles" "m" = Ret (Some r2)
    /\ convert "length" 1%float "km" "m" = Ret (Some r3)
    /\ within (2 ^ (-49))%Q (F2Q r2) (F2Q r3).
Proof.
  eapply (X4_convert_chain "length" _ "km" "miles" "m" 1%float).
  - reflexivity.
  - discriminate.
  - vm_compute. discriminate.
  - vm_compute. discriminate.
  - vm_compute. discriminate.
  - reflexivity.
  - reflexivity.
Defined.

End ConvertMore.

(** * Further properties of the number format *)

Module FormatMore.
Import StrFacts.

Lemma rstrip_cons (c a : ascii) (t : string) :
  Str.rstrip c (String a t)
  = match Str.rstrip c t with
    | EmptyString => if Ascii.eqb a c then EmptyString else String a EmptyString
    | r => String a r
    end.
Proof. reflexivity. Qed.

Lemma rstrip_zeros (n : nat) : Str.rstrip "0" (zeros n) = "".
Proof.
  induction n as [|n IH]; [reflexivity |].
  cbn [zeros]. rewrite rstrip_cons, IH. reflexivity.
Qed.

(** What follows is kept: all that is before it is kept too. *)
Lemma rstrip_app_kept (c : ascii) (s t : string) :
  Str.rstrip c t <> "" -> Str.rstrip c (s ++ t) = s ++ Str.rstrip c t.
Proof.
  intros N. induction s as [|a s IH]; [reflexivity |].
  cbn [append]. rewrite rstrip_cons, IH.
  destruct (s ++ Str.rstrip c t) as [|x y] eqn:E; [| reflexivity].
  destruct s; [now elim N | discriminate].
Qed.

(** What follows is stripped whole: the stripping goes on before it. *)
Lemma rstrip_app_gone (c : ascii) (s t : string) :
  Str.rstrip c t = "" -> Str.rstrip c (s ++ t) = Str.rstrip c s.
Proof.
  intros E. induction s as [|a s IH]; [exact E |].
  cbn [append]. now rewrite !rstrip_cons, IH.
Qed.

Lemma rstrip_same (c : ascii) (s : string) :
  ends_with c s = false -> Str.rstrip c s = s.
Proof.
  induction s as [|a s IH]; intros E; [reflexivity |].
  rewrite rstrip_cons. destruct s as [|b s].
  - cbn [ends_with] in E. cbn [Str.rstrip]. now rewrite E.
  - change (ends_with c (String a (String b s))) with (ends_with c (String b s)) in E.
    now rewrite (IH E).
Qed.

(** X7.  The format of a result, [.rstrip('0').rstrip('.')], on a number
    whose decimals are all zeros: the decimals and the point go, and the
    zeros that end the integer part stay. *)
Theorem X7_strip_whole_number (i : string) (n : nat) :
  ends_with "." i = false ->
  Str.rstrip "." (Str.rstrip "0" (i ++ "." ++ zeros n)) = i.
Proof.
  intros E.
  assert (P : Str.rstrip "0" ("." ++ zeros n) = ".").
  { cbn [append]. rewrite rstrip_cons, rstrip_zeros. reflexivity. }
  rewrite rstrip_app_kept; rewrite P; [| discriminate].
  rewrite rstrip_app_gone by reflexivity.
  now apply rstrip_same.
Qed.

Lemma X7_strip_whole_number_witness :
  Str.rstrip "." (Str.rstrip "0" ("100" ++ "." ++ zeros 4)) = "100".
Proof. apply (X7_strip_whole_number "100" 4). reflexivity. Defined.

(** X8.  The same format on a number with decimals [f] that do not end with
    a zero, followed by zeros: only the zeros after [f] go. *)
Theorem X8_strip_decimals (i f : string) (n : nat) :
  f <> "" -> ends_with "0" f = false -> ends_with "." f = false ->
  Str.rstrip "." (Str.rstrip "0" (i ++ "." ++ f ++ zeros n)) = i ++ "." ++ f.
Proof.
  intros N E0 Ep.
  assert (P : Str.rstrip "0" (f ++ zeros n) = f).
  { rewrite rstrip_app_gone by apply rstrip_zeros. now apply rstrip_same. }
  rewrite <- (app_assoc i "." (f ++ zeros n)).
  rewrite (rstrip_app_kept "0" (i ++ ".") (f ++ zeros n)); rewrite P; [| exact N].
  rewrite (rstrip_app_kept "." (i ++ ".") f); rewrite (rstrip_same "." f Ep);
    [apply app_assoc | exact N].
Qed.

Lemma X8_strip_decimals_witness :
  Str.rstrip "." (Str.rstrip "0" ("33" ++ "." ++ "33" ++ zeros 2)) = "33" ++ "." ++ "33".
Proof.
  apply (X8_strip_decimals "33" "33" 2); [discriminate | reflexivity | reflexivity].
Defined.

End FormatMore.

(** * Further properties of the template engine *)

Module TemplateMore.
Import StrFacts MarkerFacts SubstFacts ReFacts ScanFacts.

(** The run that [take_word] takes and what it leaves make up the text. *)
Lemma take_word_from_split (uni_word : string -> nat) (s : string) :
  forall (k : nat) (w r : string),
  Re.take_word_from uni_word k s = (w, r) -> s = w ++ r.
Proof.
  induction s as [|c s IH]; intros k w r E.
  - simpl in E. now injection E as <- <-.
  - cbn [Re.take_word_from] in E.
    assert (G : forall n, (let (w0, rest) := Re.take_word_from uni_word n s in
                           (String c w0, rest)) = (w, r) ->
                          String c s = w ++ r).
    { intros n. destruct (Re.take_word_from uni_word n s) as [w0 r0] eqn:T.
      intros [= <- <-]. cbn [append]. f_equal. exact (IH n w0 r0 T). }
    destruct k as [|k]; [| now apply (G k)].
    destruct (Re.is_word c); [now apply (G 0) |].
    destruct (Re.is_ascii c); [now injection E as <- <- |].
    destruct (uni_word (String c s)) as [|n]; [now injection E as <- <- |].
    now apply (G n).
Qed.

Lemma name_then_split (uni_word : string -> nat) (close s w r : string) :
  Re.name_then uni_word close s = Some (w, r) -> s = w ++ close ++ r.
Proof.
  unfold Re.name_then, Re.take_word.
  destruct (Re.take_word_from uni_word 0 s) as [w0 r0] eqn:T.
  apply take_word_from_split in T. subst s.
  destruct w0 as [|c w0]; [discriminate |].
  destruct (Str.strip_prefix close r0) as [r1|] eqn:P; [| discriminate].
  apply strip_prefix_some in P. subst r0. now intros [= <- <-].
Qed.

Lemma occurs_here (pat u w : string) : occurs pat (u ++ pat ++ w) = true.
Proof.
  unfold occurs. induction u as [|c u IH].
  - cbn [append]. rewrite split_on_eq, prefix_app. reflexivity.
  - cbn [append]. rewrite split_on_eq.
    destruct (prefix pat (String c (u ++ pat ++ w))); [reflexivity |].
    destruct (Str.split_on pat (u ++ pat ++ w)) as [[? ?]|]; [reflexivity | discriminate].
Qed.

(** A match of the loop pattern starts with the opening of a loop. *)
Lemma loop_pattern_shape (uni_word : string -> nat) (v k body else_body : string)
  (n : nat) :
  Re.loop_pattern uni_word v = Some ((k, body, else_body), n) ->
  exists w, v = loop_open k ++ w.
Proof.
  unfold Re.loop_pattern.
  destruct (Str.strip_prefix "{% for item in " v) as [s1|] eqn:P; [| discriminate].
  apply strip_prefix_some in P. subst v.
  destruct (Re.name_then uni_word " %}" s1) as [[name s2]|] eqn:Nm; [| discriminate].
  apply name_then_split in Nm. subst s1.
  destruct (Str.split_on "{% else %}" s2) as [[b s3]|]; [| discriminate].
  destruct (Str.split_on "{% endfor %}" s3) as [[e s4]|]; [| discriminate].
  intros [= <- _ _ _]. exists s2. unfold loop_open.
  now rewrite !app_assoc.
Qed.

Lemma loop_pattern_needs_else (uni_word : string -> nat) (v : string) :
  occurs "{% else %}" v = false -> Re.loop_pattern uni_word v = None.
Proof.
  intros O. unfold Re.loop_pattern.
  destruct (Str.strip_prefix "{% for item in " v) as [s1|] eqn:P; [| reflexivity].
  apply strip_prefix_some in P. subst v.
  destruct (Re.name_then uni_word " %}" s1) as [[name s2]|] eqn:Nm; [| reflexivity].
  apply name_then_split in Nm. subst s1.
  rewrite <- !app_assoc in O. apply occurs_suffix in O.
  unfold occurs in O.
  destruct (Str.split_on "{% else %}" s2); [discriminate | reflexivity].
Qed.

Lemma if_pattern_needs_endif (uni_word : string -> nat) (v : string) :
  occurs "{% endif %}" v = false -> Re.if_pattern uni_word v = None.
Proof.
  intros O. unfold Re.if_pattern.
  destruct (Str.strip_prefix "{% if " v) as [s1|] eqn:P; [| reflexivity].
  apply strip_prefix_some in P. subst v.
  destruct (Re.name_then uni_word " %}" s1) as [[name s2]|] eqn:Nm; [| reflexivity].
  apply name_then_split in Nm. subst s1.
  rewrite <- !app_assoc in O. apply occurs_suffix in O.
  unfold occurs in O.
  destruct (Str.split_on "{% endif %}" s2); [discriminate | reflexivity].
Qed.

Section Sub.
Context {G : Type}.
Variable try_match : string -> option (G * nat).
Variable repl : G -> result string.

(** A text at no position of which the pattern matches comes out as it
    is. *)
Lemma sub_none (s : string) :
  (forall u v, s = u ++ v -> v <> "" -> try_match v = None) ->
  Re.sub try_match repl s = Ret s.
Proof.
  intros P. rewrite <- (app_nil_r s) at 1. rewrite sub_pass.
  - cbn. now rewrite app_nil_r.
  - intros u v E Nv. rewrite app_nil_r. now apply (P u v).
Qed.

(** When no replacement raises, the substitution returns. *)
Lemma sub_returns (s : string) :
  (forall u v g n, s = u ++ v -> try_match v = Some (g, n) ->
                   exists out, repl g = Ret out) ->
  forall skip, exists out, Re.sub_from try_match repl skip s = Ret out.
Proof.
  induction s as [|c s IH]; intros P skip; [now exists "" |].
  assert (P' : forall u v g n, s = u ++ v -> try_match v = Some (g, n) ->
                               exists out, repl g = Ret out).
  { intros u v g n -> T. now apply (P (String c u) v g n). }
  cbn [Re.sub_from]. destruct skip as [|k]; [| now apply IH].
  destruct (try_match (String c s)) as [[g n]|] eqn:T.
  - destruct (P "" (String c s) g n eq_refl T) as [out ->].
    destruct (IH P' (n - 1)) as [rest ->]. now eexists.
  - destruct (IH P' 0) as [rest ->]. now eexists.
Qed.

End Sub.

Lemma replace_none (old new s : string) :
  (forall u v, s = u ++ v -> v <> "" -> prefix old v = false) ->
  Str.replace_from old new 0 s = s.
Proof.
  intros P. rewrite <- (app_nil_r s) at 1. rewrite replace_from_pass.
  - now rewrite app_nil_r.
  - intros u v E Nv. rewrite app_nil_r. now apply (P u v).
Qed.

(** Stage 3 leaves a text in which no marker starts as it is, whatever the
    keys of the context are. *)
Lemma scalar_stage_inert (repr_float : float -> string) (ctx : context) (s : string) :
  inert s = true -> TemplateEngine.scalar_stage repr_float ctx s = s.
Proof.
  intros I. induction ctx as [|[k v] ctx IH]; [reflexivity |].
  rewrite scalar_stage_cons. destruct v as [x|l]; [| exact IH].
  rewrite replace_marker, replace_none; [exact IH |].
  intros u w -> Nw. rewrite <- (app_nil_r w).
  apply marker_not_at. now apply (inert_suffix u w "").
Qed.

(** X9.  A text that holds no [{% else %}] passes stage 1 as it is, in every
    context: a loop written without its else branch is never expanded, and
    never raises. *)
Theorem X9_loop_stage_without_else (uni_word : string -> nat)
  (repr_float : float -> string) (ctx : context) (s : string) :
  occurs "{% else %}" s = false ->
  TemplateEngine.loop_stage uni_word repr_float ctx s = Ret s.
Proof.
  intros O. unfold TemplateEngine.loop_stage. apply sub_none.
  intros u v -> _. apply loop_pattern_needs_else. now apply (occurs_suffix _ u).
Qed.

Lemma X9_loop_stage_without_else_witness :
  TemplateEngine.loop_stage (fun _ => 0) (fun _ => "")
    [("h", VList [[("x", SInt 1)]])]
    "{% for item in h %}[{{ item.x }}]{% endfor %}"
  = Ret "{% for item in h %}[{{ item.x }}]{% endfor %}".
Proof.
  apply (X9_loop_stage_without_else (fun _ => 0) (fun _ => "")).
  vm_compute. reflexivity.
Defined.

(** X10.  A text that holds no [{% endif %}] passes stage 2 as it is, in
    every context. *)
Theorem X10_if_stage_without_endif (uni_word : string -> nat) (ctx : context)
  (s : string) :
  occurs "{% endif %}" s = false ->
  TemplateEngine.if_stage uni_word ctx s = Ret s.
Proof.
  intros O. unfold TemplateEngine.if_stage. apply sub_none.
  intros u v -> _. apply if_pattern_needs_endif. now apply (occurs_suffix _ u).
Qed.

Lemma X10_if_stage_without_endif_witness :
  TemplateEngine.if_stage (fun _ => 0) [("flag", VScalar (SBool false))]
    "{% if flag %}shown"
  = Ret "{% if flag %}shown".
Proof.
  apply (X10_if_stage_without_endif (fun _ => 0)).
  vm_compute. reflexivity.
Defined.

(** X11.  A template in which every opening brace is followed by a
    character other than [%] and [{] is rendered as it stands, in every
    context, whatever its keys and values are. *)
Theorem X11_render_plain_text (uni_word : string -> nat)
  (repr_float : float -> string) (ctx : context) (s : string) :
  quiet "%" s = true -> inert s = true ->
  TemplateEngine.render uni_word repr_float (Readable s) ctx = Ret s.
Proof.
  intros Q I. unfold TemplateEngine.render.
  assert (L : TemplateEngine.loop_stage uni_word repr_float ctx s = Ret s).
  { unfold TemplateEngine.loop_stage. apply sub_none. intros u v -> Nv.
    apply loop_pattern_none. rewrite <- (app_nil_r v).
    exact (quiet_suffix "%" u v "" Q Nv). }
  assert (F : TemplateEngine.if_stage uni_word ctx s = Ret s).
  { unfold TemplateEngine.if_stage. apply sub_none. intros u v -> Nv.
    apply if_pattern_none. rewrite <- (app_nil_r v).
    exact (quiet_suffix "%" u v "" Q Nv). }
  rewrite L. cbn [bind]. rewrite F. cbn [bind].
  now rewrite scalar_stage_inert.
Qed.

Lemma X11_render_plain_text_witness :
  TemplateEngine.render (fun _ => 0) (fun _ => "")
    (Readable "<style>p { color: red }</style>")
    [("p", VScalar (SStr "x")); ("color", VScalar (SInt 1))]
  = Ret "<style>p { color: red }</style>".
Proof.
  apply (X11_render_plain_text (fun _ => 0) (fun _ => "")); reflexivity.
Defined.

Section Stages.
Variable uni_word : string -> nat.
Variable repr_float : float -> string.
Variable ctx : context.

Lemma loop_stage_same (s : string) :
  occurs "{% else %}" s = false ->
  TemplateEngine.loop_stage uni_word repr_float ctx s = Ret s.
Proof.
  intros O. unfold TemplateEngine.loop_stage. apply sub_none.
  intros u v -> _. apply loop_pattern_needs_else. now apply (occurs_suffix _ u).
Qed.

Lemma if_stage_returns (s : string) :
  exists out, TemplateEngine.if_stage uni_word ctx s = Ret out.
Proof.
  unfold TemplateEngine.if_stage, Re.sub. apply sub_returns.
  intros u v [k body] n _ _. unfold TemplateEngine.if_replacer.
  destruct (get ctx k) as [x|]; [destruct (truthy x) |]; now eexists.
Qed.

End Stages.

Lemma if_replacer_truthy (ctx : context) (k body : string) :
  Truthy (get ctx k) -> TemplateEngine.if_replacer ctx (k, body) = Ret body.
Proof.
  unfold TemplateEngine.if_replacer.
  destruct (get ctx k) as [[[s|z|f|b]|l]|]; simpl; intros T.
  - destruct (String.eqb_spec s ""); [tauto | reflexivity].
  - destruct (Z.eqb_spec z 0); [tauto | reflexivity].
  - now rewrite T.
  - now rewrite T.
  - destruct l; [tauto | reflexivity].
  - tauto.
Qed.

Lemma if_replacer_falsy (ctx : context) (k body : string) :
  ~ Truthy (get ctx k) -> TemplateEngine.if_replacer ctx (k, body) = Ret "".
Proof.
  unfold TemplateEngine.if_replacer.
  destruct (get ctx k) as [[[s|z|f|b]|l]|]; simpl; intros T.
  - destruct (String.eqb_spec s ""); [reflexivity | tauto].
  - destruct (Z.eqb_spec z 0); [reflexivity | tauto].
  - destruct (PrimFloat.eqb f 0); [reflexivity | tauto].
  - destruct b; [tauto | reflexivity].
  - destruct l; [reflexivity |]. elim T. discriminate.
  - reflexivity.
Qed.

(** X12.  [render] returns, it does not raise, as soon as the template opens
    no loop on a key whose value is a truthy string, number or boolean: the
    text [{% for item in key %}] occurs for no such key. *)
Theorem X12_render_returns (uni_word : string -> nat)
  (repr_float : float -> string) (ctx : context) (s : string) :
  (forall k x, get ctx k = Some (VScalar x) -> truthy_scalar x = true ->
               occurs (loop_open k) s = false) ->
  exists out, TemplateEngine.render uni_word repr_float (Readable s) ctx = Ret out.
Proof.
  intros S. unfold TemplateEngine.render.
  assert (L : exists out,
            TemplateEngine.loop_stage uni_word repr_float ctx s = Ret out).
  { unfold TemplateEngine.loop_stage, Re.sub. apply sub_returns.
    intros u v [[k body] else_body] n -> T.
    apply loop_pattern_shape in T. destruct T as [w ->].
    unfold TemplateEngine.loop_replacer.
    destruct (get ctx k) as [[x|l]|] eqn:G; [| | now eexists].
    - destruct (truthy_scalar x) eqn:Tx.
      + pose proof (S k x G Tx) as O.
        rewrite occurs_here in O. discriminate.
      + cbn [truthy negb]. rewrite Tx. now eexists.
    - destruct (negb (truthy (VList l))); now eexists. }
  destruct L as [out1 ->]. cbn [bind].
  destruct (if_stage_returns uni_word ctx out1) as [out2 ->].
  now eexists.
Qed.

Lemma X12_render_returns_witness :
  exists out,
    TemplateEngine.render (fun _ => 0) (fun _ => "")
      (Readable "{{ current_cat }}: {% for item in history %}{{ item.to_val }};{% else %}-{% endfor %}")
      [("current_cat", VScalar (SStr "length")); ("history", VList [])]
    = Ret out.
Proof.
  apply (X12_render_returns (fun _ => 0) (fun _ => "")).
  intros k x G T. cbn [get] in G.
  destruct (String.eqb_spec "current_cat" k) as [<-|_];
    [vm_compute; reflexivity |].
  destruct (String.eqb "history" k); discriminate.
Defined.

(** X13.  In a template whose text before the block holds no
    [{% for item in ], a loop block on a key whose value is a truthy scalar
    makes [render] raise: [AttributeError] for a non-empty string (its
    characters have no [items]), [TypeError] for a non-zero number or the
    boolean true (they are not iterable). *)
Theorem X13_loop_over_scalar_raises (uni_word : string -> nat)
  (repr_float : float -> string) (ctx : context)
  (k body else_body pre post : string) (x : scalar) :
  is_name k ->
  occurs "{% else %}" body = false ->
  occurs "{% endfor %}" else_body = false ->
  occurs "{% for item in " pre = false ->
  get ctx k = Some (VScalar x) -> truthy_scalar x = true ->
  TemplateEngine.render uni_word repr_float
    (Readable (pre ++ loop_block k body else_body ++ post)) ctx
  = Raise match x with SStr _ => AttributeError | _ => TypeError end.
Proof.
  intros Nk Ob Oe Op G T. unfold TemplateEngine.render.
  rewrite loop_stage_over by (exact Op || reflexivity).
  rewrite loop_stage_block by assumption.
  unfold TemplateEngine.loop_replacer. rewrite G.
  cbn [truthy negb]. rewrite T. now destruct x.
Qed.

Lemma X13_loop_over_scalar_raises_witness :
  TemplateEngine.render (fun _ => 0) (fun _ => "")
    (Readable ("{% if amount %}<p>{{ amount }}</p>{% endif %}"
               ++ loop_block "amount" "{{ item.x }}" "-" ++ "</p>"))
    [("amount", VScalar (SInt 100))]
  = Raise TypeError.
Proof.
  apply (X13_loop_over_scalar_raises (fun _ => 0) (fun _ => "")
           [("amount", VScalar (SInt 100))] "amount" "{{ item.x }}" "-"
           "{% if amount %}<p>{{ amount }}</p>{% endif %}" "</p>" (SInt 100)).
  - split; [discriminate | reflexivity].
  - vm_compute. reflexivity.
  - vm_compute. reflexivity.
  - vm_compute. reflexivity.
  - reflexivity.
  - reflexivity.
Defined.

(** X14.  When no [{% for item in ] starts in the text before the block or
    in the else-body (whatever else they hold, conditionals included), a
    loop block on an absent key or on an empty sequence renders as its
    else-body does when it is written in the place of the block: the
    else-body goes through stages 2 and 3 with the rest of the page. *)
Theorem X14_empty_loop_is_else_body (uni_word : string -> nat)
  (repr_float : float -> string) (ctx : context)
  (k body else_body pre post : string) :
  is_name k ->
  occurs "{% else %}" body = false ->
  occurs "{% endfor %}" else_body = false ->
  starts_in "{% for item in " (pre ++ else_body) post = false ->
  get ctx k = None \/ get ctx k = Some (VList []) ->
  TemplateEngine.render uni_word repr_float
    (Readable (pre ++ loop_block k body else_body ++ post)) ctx
  = TemplateEngine.render uni_word repr_float
      (Readable (pre ++ else_body ++ post)) ctx.
Proof.
  intros Nk Ob Oe S G. unfold TemplateEngine.render.
  assert (Op : occurs "{% for item in " pre = false).
  { apply (starts_in_occurs _ pre else_body post); [discriminate | exact S]. }
  rewrite loop_stage_over by (exact Op || reflexivity).
  rewrite loop_stage_block by assumption.
  rewrite <- (app_assoc pre else_body post).
  rewrite (loop_stage_clear uni_word repr_float ctx (pre ++ else_body) post S).
  unfold TemplateEngine.loop_replacer.
  destruct G as [-> | ->]; cbn [truthy negb bind];
    destruct (TemplateEngine.loop_stage uni_word repr_float ctx post);
    cbn [bind]; now rewrite ?app_assoc.
Qed.

Lemma X14_empty_loop_is_else_body_witness :
  TemplateEngine.render (fun _ => 0) (fun _ => "")
    (Readable ("{% if title %}<h2>{{ title }}</h2>{% endif %}<ul>"
               ++ loop_block "history" "<li>{{ item.to_val }}</li>"
                    "{% if empty %}<li>{{ empty }}</li>{% endif %}"
               ++ "</ul>"))
    [("empty", VScalar (SStr "nothing yet")); ("history", VList [])]
  = TemplateEngine.render (fun _ => 0) (fun _ => "")
      (Readable ("{% if title %}<h2>{{ title }}</h2>{% endif %}<ul>"
                 ++ "{% if empty %}<li>{{ empty }}</li>{% endif %}" ++ "</ul>"))
      [("empty", VScalar (SStr "nothing yet")); ("history", VList [])].
Proof.
  apply (X14_empty_loop_is_else_body (fun _ => 0) (fun _ => "")).
  - split; [discriminate | reflexivity].
  - vm_compute. reflexivity.
  - vm_compute. reflexivity.
  - vm_compute. reflexivity.
  - right. reflexivity.
Defined.

(** X15.  In a template that holds no [{% else %}] (so that stage 1 leaves
    it as it is) and whose text before the block holds no [{% if ], a
    conditional on a truthy key makes the page stage 3 of the text before
    the block, the body and what stage 2 makes of the text after the
    block: the markers of the body are substituted with the context of the
    page.  On a key that is not truthy the body is left out. *)
Theorem X15_conditional_in_page (uni_word : string -> nat)
  (repr_float : float -> string) (ctx : context) (k body pre post : string) :
  is_name k ->
  occurs "{% endif %}" body = false ->
  occurs "{% if " pre = false ->
  occurs "{% else %}" (pre ++ if_block k body ++ post) = false ->
  (Truthy (get ctx k) ->
   TemplateEngine.render uni_word repr_float
     (Readable (pre ++ if_block k body ++ post)) ctx
   = (rest <- TemplateEngine.if_stage uni_word ctx post ;;
      Ret (TemplateEngine.scalar_stage repr_float ctx (pre ++ body ++ rest))))
  /\ (~ Truthy (get ctx k) ->
      TemplateEngine.render uni_word repr_float
        (Readable (pre ++ if_block k body ++ post)) ctx
      = (rest <- TemplateEngine.if_stage uni_word ctx post ;;
         Ret (TemplateEngine.scalar_stage repr_float ctx (pre ++ rest)))).
Proof.
  intros Nk Ob Op O.
  assert (L : TemplateEngine.render uni_word repr_float
                (Readable (pre ++ if_block k body ++ post)) ctx
              = (out <- TemplateEngine.if_replacer ctx (k, body) ;;
                 rest <- TemplateEngine.if_stage uni_word ctx post ;;
                 Ret (TemplateEngine.scalar_stage repr_float ctx
                        (pre ++ out ++ rest)))).
  { unfold TemplateEngine.render.
    rewrite loop_stage_same by exact O. cbn [bind].
    rewrite if_stage_over by (exact Op || reflexivity).
    rewrite if_stage_block by assumption.
    destruct (TemplateEngine.if_replacer ctx (k, body)) as [out|e]; [| reflexivity].
    cbn [bind].
    destruct (TemplateEngine.if_stage uni_word ctx post); reflexivity. }
  split; intros T; rewrite L.
  - now rewrite (if_replacer_truthy ctx k body T).
  - now rewrite (if_replacer_falsy ctx k body T).
Qed.

Lemma X15_conditional_in_page_witness :
  TemplateEngine.render (fun _ => 0) (fun _ => "")
    (Readable ("{% for item in history %}<li>{{ item.to_val }}</li>{% endfor %}<p>"
               ++ if_block "result" "= {{ result }}" ++ "</p>"))
    [("result", VScalar (SStr "42"))]
  = (rest <- TemplateEngine.if_stage (fun _ => 0) [("result", VScalar (SStr "42"))] "</p>" ;;
     Ret (TemplateEngine.scalar_stage (fun _ => "") [("result", VScalar (SStr "42"))]
            ("{% for item in history %}<li>{{ item.to_val }}</li>{% endfor %}<p>"
             ++ "= {{ result }}" ++ rest))).
Proof.
  assert (Nk : is_name "result") by (split; [discriminate | reflexivity]).
  assert (Ob : occurs "{% endif %}" "= {{ result }}" = false)
    by (vm_compute; reflexivity).
  assert (Op : occurs "{% if "
                 "{% for item in history %}<li>{{ item.to_val }}</li>{% endfor %}<p>"
               = false) by (vm_compute; reflexivity).
  assert (O : occurs "{% else %}"
                ("{% for item in history %}<li>{{ item.to_val }}</li>{% endfor %}<p>"
                 ++ if_block "result" "= {{ result }}" ++ "</p>") = false)
    by (vm_compute; reflexivity).
  destruct (X15_conditional_in_page (fun _ => 0) (fun _ => "")
              [("result", VScalar (SStr "42"))] "result" "= {{ result }}"
              "{% for item in history %}<li>{{ item.to_val }}</li>{% endfor %}<p>"
              "</p>" Nk Ob Op O) as [T _].
  apply T. discriminate.
Defined.

Lemma get_some_in {V : Type} (d : list (string * V)) (k : string) (v : V) :
  get d k = Some v -> In (k, v) d.
Proof.
  induction d as [|[j w] d IH]; [discriminate |].
  simpl. destruct (String.eqb_spec j k) as [->|_].
  - intros [= ->]. now left.
  - intros E. right. now apply IH.
Qed.

Lemma get_none_out {V : Type} (d : list (string * V)) (k : string) :
  get d k = None -> ~ In k (map fst d).
Proof.
  intros E I. apply in_map_iff in I. destruct I as [[j v] [<- I]].
  now apply (get_present _ _ _ I).
Qed.

(** A dict read through its keys: the order of its entries does not
    matter. *)
Lemma get_permutation {V : Type} (d d' : list (string * V)) (k : string) :
  NoDup (map fst d) -> Permutation d d' -> get d k = get d' k.
Proof.
  intros D P.
  assert (D' : NoDup (map fst d')).
  { eapply Permutation_NoDup; [| exact D]. now apply Permutation_map. }
  destruct (get d k) as [v|] eqn:E.
  - symmetry. apply get_in_nodup; [exact D' |].
    eapply Permutation_in; [exact P |]. now apply get_some_in.
  - symmetry. apply get_absent. intros I.
    apply (get_none_out _ _ E).
    eapply Permutation_in; [| exact I].
    apply Permutation_sym. now apply Permutation_map.
Qed.

(** X16.  On a text made of markers and of stretches in which no marker
    starts, for keys without opening brace and blank and values whose
    string form starts no marker, the result of stage 3 does not depend on
    the order in which the context holds its keys. *)
Theorem X16_scalar_stage_any_order (repr_float : float -> string)
  (ctx ctx' : context) (segs : list seg) :
  NoDup (map fst ctx) ->
  Permutation ctx ctx' ->
  (forall k x, In (k, VScalar x) ctx ->
               plain_key k /\ inert (TemplateEngine.str repr_float x) = true) ->
  Forall well_formed_seg segs ->
  TemplateEngine.scalar_stage repr_float ctx (text_of segs)
  = TemplateEngine.scalar_stage repr_float ctx' (text_of segs).
Proof.
  intros D P V W.
  assert (D' : NoDup (map fst ctx')).
  { eapply Permutation_NoDup; [| exact D]. now apply Permutation_map. }
  rewrite !scalar_stage_segs; try assumption.
  - apply flat_map_ext. intros [s|k] _; [reflexivity |].
    cbn [expand]. now rewrite (get_permutation ctx ctx' k D P).
  - intros k x I. apply V. eapply Permutation_in; [| exact I].
    now apply Permutation_sym.
Qed.

Lemma X16_scalar_stage_any_order_witness :
  TemplateEngine.scalar_stage (fun _ => "")
    [("amount", VScalar (SInt 5)); ("result", VScalar (SStr "5000"))]
    (text_of [Var "amount"; Lit " km = "; Var "result"; Lit " m"])
  = TemplateEngine.scalar_stage (fun _ => "")
      [("result", VScalar (SStr "5000")); ("amount", VScalar (SInt 5))]
      (text_of [Var "amount"; Lit " km = "; Var "result"; Lit " m"]).
Proof.
  apply (X16_scalar_stage_any_order (fun _ => "")).
  - repeat constructor; simpl; intuition discriminate.
  - apply perm_swap.
  - intros k x [E|[E|[]]]; inversion E; subst; repeat split.
  - repeat constructor.
Defined.

End TemplateMore.

(** * Further properties of the request handlers *)

Module HandlerMore.
Import RequestHandler HistoryFacts ConvertFacts.

Lemma skipn_succ_tl {T : Type} (n : nat) (l : list T) :
  skipn (S n) l = tl (skipn n l).
Proof.
  revert l. induction n as [|n IH]; intros [|a l]; try reflexivity.
  exact (IH l).
Qed.

Lemma in_skipn {T : Type} (n : nat) (l : list T) (x : T) :
  In x (skipn n l) -> In x l.
Proof.
  revert l. induction n as [|n IH]; intros [|a l] I; try exact I.
  right. now apply IH.
Qed.

(** Appending to the last five and capping gives the last five of the
    longer list. *)
Lemma cap_last_n (l : list record) (e : record) :
  fst (cap (last_n 5 l ++ [e])%list) = last_n 5 (l ++ [e])%list.
Proof.
  unfold cap, last_n. cbn [fst].
  assert (E : (skipn (List.length l - 5) l ++ [e])%list
              = skipn (List.length l - 5) (l ++ [e])%list).
  { rewrite skipn_app.
    replace (List.length l - 5 - List.length l) with 0 by lia. reflexivity. }
  rewrite E, length_skipn, !List.length_app. cbn [List.length].
  destruct (Nat.ltb_spec 5 (List.length l + 1 - (List.length l - 5))).
  - rewrite <- skipn_succ_tl. f_equal. lia.
  - f_equal. lia.
Qed.

Lemma get_set_same {V : Type} (d : list (string * V)) (k : string) (v : V) :
  get (set d k v) k = Some v.
Proof.
  induction d as [|[j w] d IH]; simpl.
  - now rewrite String.eqb_refl.
  - destruct (String.eqb j k) eqn:E; simpl; rewrite E; [reflexivity | exact IH].
Qed.

Section WithHandler.
Context {A : Type} `{Arith A}.
Variable parse_float : string -> option A.
Variable format_4f : A -> string.
Variable repr_float : float -> string.
Variable uni_word : string -> nat.
Variable template : template_file.

Lemma do_GET_history (params : list (string * string)) (h : list record) :
  fst (do_GET (A:=A) repr_float uni_word template params h) = h.
Proof.
  unfold do_GET, mbind, lift, read.
  destruct (item UNITS_CONFIG _); reflexivity.
Qed.

Lemma conversion_shape (data : list (string * string)) (e : record) :
  conversion_of parse_float format_4f data = Some e -> entry_shape e.
Proof.
  unfold conversion_of.
  destruct (String.eqb _ "convert"); [| discriminate].
  destruct (parse_float _) as [val|]; [| discriminate].
  destruct (ConverterService.convert _ val _ _) as [[res|]|]; try discriminate.
  destruct (units_of _) as [us|]; [| discriminate].
  destruct (get us _) as [uf|]; [| discriminate].
  destruct (get us _) as [ut|]; [| discriminate].
  intros [= <-]. now eexists _, _.
Qed.

(** The history after any run of requests is the last five entries of the
    conversions that succeeded. *)
Lemma run_server_window (requests : list request) :
  run_server parse_float format_4f repr_float uni_word template requests
  = last_n 5 (conversions parse_float format_4f requests).
Proof.
  unfold run_server.
  change (@nil record) with (last_n 5 (@nil record)) at 1.
  rewrite <- (List.app_nil_l (conversions parse_float format_4f requests)).
  generalize (@nil record) as l.
  induction requests as [|r rs IH]; intros l.
  - cbn. now rewrite List.app_nil_r.
  - cbn [fold_left conversions flat_map]. destruct r as [params|data].
    + cbn [handle]. rewrite do_GET_history. cbn [List.app]. apply IH.
    + cbn [handle]. rewrite do_POST_history.
      destruct (conversion_of parse_float format_4f data) as [e|].
      * rewrite cap_last_n, IH.
        now rewrite <- List.app_assoc.
      * cbn [List.app]. apply IH.
Qed.

(** X17.  After any run of GET and POST requests on a fresh server, the
    history is the last five entries of the conversions that succeeded, in
    the order of the requests: GET requests, swaps, amounts that are not
    numbers and conversions that fail leave no trace. *)
Theorem X17_history_window (requests : list request) :
  run_server parse_float format_4f repr_float uni_word template requests
  = last_n 5 (conversions parse_float format_4f requests).
Proof. apply run_server_window. Qed.

(** X20.  After any run of requests, every entry of the history is a
    record of exactly two fields, [from_val] and [to_val] in this order,
    both strings. *)
Theorem X20_history_entries (requests : list request) :
  Forall entry_shape
    (run_server parse_float format_4f repr_float uni_word template requests).
Proof.
  rewrite run_server_window. apply Forall_forall. intros e I.
  apply in_skipn in I. unfold conversions in I. apply in_flat_map in I.
  destruct I as [[params|data] [_ I]]; [destruct I |].
  destruct (conversion_of parse_float format_4f data) as [e'|] eqn:C;
    [| destruct I].
  destruct I as [<-|[]]. exact (conversion_shape data e' C).
Qed.

(** X18.  A POST request changes the history only by a conversion that
    succeeds: when the history after the request differs from the history
    before it, the action is [convert], the amount is a number and
    [convert] returned a value for it. *)
Theorem X18_history_changes_on_success (data : list (string * string))
  (h : list record) :
  fst (do_POST parse_float format_4f repr_float uni_word template data h) <> h ->
  field data "action" "convert" = "convert"
  /\ exists (val res : A),
       parse_float (field data "amount" "0") = Some val
       /\ ConverterService.convert (field data "category" "length") val
            (field data "unit_from" "") (field data "unit_to" "")
          = Ret (Some res).
Proof.
  rewrite do_POST_history. unfold conversion_of.
  destruct (String.eqb_spec (field data "action" "convert") "convert") as [E|_];
    [| intros N; now elim N].
  destruct (parse_float _) as [val|]; [| intros N; now elim N].
  destruct (ConverterService.convert _ val _ _) as [[res|]|] eqn:C;
    try (intros N; now elim N).
  intros _. split; [exact E |]. now exists val, res.
Qed.

(** X19.  A conversion on [temperature] with a unit code that the category
    does not have makes [do_POST] raise [KeyError], which nothing catches:
    [convert] falls back to Celsius and returns a value, and the lookup of
    the display name of the unit then fails.  The history is not
    changed. *)
Theorem X19_temperature_unknown_unit (data : list (string * string))
  (h : list record) (val : A) (us : list (string * unit_cfg A)) :
  field data "category" "length" = "temperature" ->
  field data "action" "convert" = "convert" ->
  parse_float (field data "amount" "0") = Some val ->
  units_of "temperature" = Some us ->
  get us (field data "unit_from" "") = None
  \/ get us (field data "unit_to" "") = None ->
  do_POST parse_float format_4f repr_float uni_word template data h
  = (h, Raise KeyError).
Proof.
  intros Ec Ea Ep Eu U. unfold do_POST. rewrite Ec, Ea, Ep.
  injection Eu as <-.
  unfold mbind at 1. cbn [read]. unfold mbind at 1.
  change (String.eqb "convert" "swap") with false. cbv iota.
  change (String.eqb "convert" "convert") with true. cbv iota.
  unfold mbind at 1. unfold lift at 1.
  rewrite convert_temperature.
  unfold mbind at 1. unfold lift at 1.
  change (item UNITS_CONFIG "temperature")
    with (Ret (A:=category_cfg A)
            {| label := "Температура";
               units := [ ("c", plain "Цельсий"); ("f", plain "Фаренгейт");
                          ("k", plain "Кельвин") ] |}).
  cbv iota. unfold mbind at 1. unfold lift at 1. unfold item at 1.
  cbn [units] in U |- *.
  destruct U as [U|U].
  - now rewrite U.
  - destruct (get _ (field data "unit_from" "")) as [uf|]; [| reflexivity].
    cbv iota. unfold mbind at 1. unfold lift at 1. unfold item at 1.
    now rewrite U.
Qed.

(** X21.  After a conversion that succeeds the page is rendered from the
    history as the request leaves it, the new entry included and the oldest
    one dropped when the list was full, and the explanation on the page is
    the two fields of the new entry around an equals sign. *)
Theorem X21_page_after_conversion (data : list (string * string))
  (h : list record) (a b : string) :
  conversion_of parse_float format_4f data
  = Some [("from_val", SStr a); ("to_val", SStr b)] ->
  exists ctx : context,
    do_POST parse_float format_4f repr_float uni_word template data h
    = (fst (cap (h ++ [[("from_val", SStr a); ("to_val", SStr b)]])%list),
       TemplateEngine.render uni_word repr_float template ctx)
    /\ get ctx "history"
       = Some (VList (fst (cap (h ++ [[("from_val", SStr a); ("to_val", SStr b)]])%list)))
    /\ get ctx "explanation" = Some (vstr (a ++ " = " ++ b)).
Proof.
  unfold conversion_of, do_POST, units_of.
  destruct (String.eqb (field data "action" "convert") "convert") eqn:Ea;
    [| discriminate].
  apply String.eqb_eq in Ea. rewrite Ea.
  change (String.eqb "convert" "swap") with false.
  change (String.eqb "convert" "convert") with true. cbv iota.
  destruct (parse_float _) as [val|]; [| discriminate].
  destruct (ConverterService.convert _ val _ _) as [[res|]|] eqn:C;
    try discriminate.
  destruct (get UNITS_CONFIG _) as [cfg|] eqn:G; [| discriminate].
  destruct (get (units cfg) (field data "unit_from" "")) as [uf|] eqn:Gf;
    [| discriminate].
  destruct (get (units cfg) (field data "unit_to" "")) as [ut|] eqn:Gt;
    [| discriminate].
  intros [= <- <-].
  unfold mbind, lift, item, read, append, cap, mret, _send_response.
  rewrite G, Gf, Gt.
  eexists. split; [reflexivity |]. split.
  - apply get_set_same.
  - cbn [set get String.eqb Ascii.eqb Bool.eqb vstr].
    do 2 f_equal. now rewrite StrFacts.app_assoc.
Qed.

(** X22.  A GET request never fails on the table: whatever the query says,
    the page is rendered for a category of the table, the one asked for
    when the table has it and [length] otherwise, the two option lists
    preselect two different units of that category, and the history is
    shown and left as it is. *)
Theorem X22_fresh_page (params : list (string * string)) (h : list record) :
  exists (category u1 u2 : string) (cfg : category_cfg A) (ctx : context),
    do_GET (A:=A) repr_float uni_word template params h
    = (h, TemplateEngine.render uni_word repr_float template ctx)
    /\ get UNITS_CONFIG category = Some cfg
    /\ category
       = (if contains (UNITS_CONFIG (A:=A)) (field params "category" "length")
          then field params "category" "length" else "length")
    /\ get ctx "current_cat" = Some (vstr category)
    /\ get ctx "unit_from_options"
       = Some (vstr (_get_options_html (A:=A) category u1))
    /\ get ctx "unit_to_options"
       = Some (vstr (_get_options_html (A:=A) category u2))
    /\ contains (units cfg) u1 = true
    /\ contains (units cfg) u2 = true
    /\ String.eqb u1 u2 = false
    /\ get ctx "history" = Some (VList h).
Proof.
  assert (K : exists cfg : category_cfg A,
             get UNITS_CONFIG
               (if contains (UNITS_CONFIG (A:=A)) (field params "category" "length")
                then field params "category" "length" else "length")
             = Some cfg).
  { unfold contains.
    destruct (get UNITS_CONFIG (field params "category" "length")) as [cfg|] eqn:G.
    - now exists cfg.
    - eexists. reflexivity. }
  destruct K as [cfg G].
  unfold do_GET.
  replace (if negb (contains (UNITS_CONFIG (A:=A)) (field params "category" "length"))
           then "length" else field params "category" "length")
    with (if contains (UNITS_CONFIG (A:=A)) (field params "category" "length")
          then field params "category" "length" else "length")
    by (now destruct (contains _ _)).
  revert G.
  generalize (if contains (UNITS_CONFIG (A:=A)) (field params "category" "length")
              then field params "category" "length" else "length").
  intros category G.
  unfold mbind, lift, item, read, _send_response. rewrite G.
  exists category. eexists _, _. exists cfg. eexists.
  split; [reflexivity |]. split; [exact G |]. split; [reflexivity |].
  split; [reflexivity |]. split; [reflexivity |]. split; [reflexivity |].
  split; [| split; [| split; [| apply get_set_same]]];
    destruct (known_category _ _ G) as [E | [E | [E | E]]]; subst category;
    cbv in G; injection G as <-; reflexivity.
Qed.

(** What [convert] returns: never an exception, and a value only for a
    category of the table, in the linear categories only for two units of
    the category. *)
Lemma convert_result (category : string) (v : A) (f t : string) :
  match ConverterService.convert category v f t with
  | Ret (Some _) =>
      exists cfg : category_cfg A,
        get UNITS_CONFIG category = Some cfg
        /\ (category <> "temperature" ->
            get (units cfg) f <> None /\ get (units cfg) t <> None)
  | Ret None => True
  | Raise _ => False
  end.
Proof.
  destruct (get (UNITS_CONFIG (A:=A)) category) as [cfg|] eqn:G.
  - destruct (string_dec category "temperature") as [->|N].
    + rewrite convert_temperature. exists cfg.
      split; [reflexivity | intros N; now elim N].
    + rewrite (convert_linear category cfg v f t G N).
      destruct (get (units cfg) f) as [uf|] eqn:Gf; [| exact I].
      destruct (get (units cfg) t) as [ut|] eqn:Gt; [| exact I].
      destruct (linear_factor _ _ _ _ G N Gf) as [ff [-> _]].
      destruct (linear_factor _ _ _ _ G N Gt) as [ft [-> _]].
      exists cfg. split; [reflexivity |]. intros _. rewrite Gf, Gt.
      split; discriminate.
  - now rewrite (convert_unknown_category category v f t G).
Qed.

(** X23.  Apart from a temperature request with a unit code that the
    category does not have, every POST request reaches the rendering of
    the page: no lookup in the table raises, whatever the form holds, and
    the page is rendered from the history as the request leaves it. *)
Theorem X23_do_POST_reaches_render (data : list (string * string))
  (h : list record) :
  (field data "category" "length" = "temperature" ->
   forall us : list (string * unit_cfg A),
     units_of "temperature" = Some us ->
     get us (field data "unit_from" "") <> None
     /\ get us (field data "unit_to" "") <> None) ->
  exists (ctx : context) (h' : list record),
    do_POST parse_float format_4f repr_float uni_word template data h
    = (h', TemplateEngine.render uni_word repr_float template ctx)
    /\ get ctx "history" = Some (VList h').
Proof.
  intros T. unfold do_POST. unfold mbind at 1. cbn [read].
  destruct (String.eqb (field data "action" "convert") "swap").
  { eexists _, _. split; [reflexivity | apply get_set_same]. }
  destruct (String.eqb (field data "action" "convert") "convert").
  2: { eexists _, _. split; [reflexivity | apply get_set_same]. }
  destruct (parse_float (field data "amount" "0")) as [val|].
  2: { eexists _, _. split; [reflexivity | apply get_set_same]. }
  pose proof (convert_result (field data "category" "length") val
                (field data "unit_from" "") (field data "unit_to" "")) as R.
  unfold mbind, lift, item, read, append, cap, mret, _send_response.
  destruct (ConverterService.convert _ val _ _) as [[res|]|e].
  3: { destruct R. }
  2: { eexists _, _. split; [reflexivity | apply get_set_same]. }
  destruct R as [cfg [G U]]. rewrite G.
  assert (K : get (units cfg) (field data "unit_from" "") <> None
              /\ get (units cfg) (field data "unit_to" "") <> None).
  { destruct (string_dec (field data "category" "length") "temperature") as [E|N].
    - apply (T E). unfold units_of. rewrite <- E. now rewrite G.
    - exact (U N). }
  destruct K as [Kf Kt].
  destruct (get (units cfg) (field data "unit_from" "")) as [uf|]; [| now elim Kf].
  destruct (get (units cfg) (field data "unit_to" "")) as [ut|]; [| now elim Kt].
  eexists _, _. split; [reflexivity | apply get_set_same].
Qed.

End WithHandler.

Lemma X18_history_changes_on_success_witness :
  field [("category", "length"); ("amount", "1"); ("unit_from", "km"); ("unit_to", "m")]
    "action" "convert" = "convert"
  /\ exists (val res : Q),
       (fun _ : string => Some 1%Q)
         (field [("category", "length"); ("amount", "1"); ("unit_from", "km");
                 ("unit_to", "m")] "amount" "0") = Some val
       /\ ConverterService.convert
            (field [("category", "length"); ("amount", "1"); ("unit_from", "km");
                    ("unit_to", "m")] "category" "length") val
            (field [("category", "length"); ("amount", "1"); ("unit_from", "km");
                    ("unit_to", "m")] "unit_from" "")
            (field [("category", "length"); ("amount", "1"); ("unit_from", "km");
                    ("unit_to", "m")] "unit_to" "")
          = Ret (Some res).
Proof.
  apply (X18_history_changes_on_success (A:=Q)
           (fun _ => Some 1%Q) (fun _ => "1000.0000") (fun _ => "") (fun _ => 0)
           Missing
           [("category", "length"); ("amount", "1"); ("unit_from", "km");
            ("unit_to", "m")] []).
  vm_compute. discriminate.
Defined.

Lemma X19_temperature_unknown_unit_witness :
  do_POST (A:=Q) (fun _ => Some 1%Q) (fun _ => "1.0000") (fun _ => "") (fun _ => 0)
    Missing
    [("category", "temperature"); ("amount", "1"); ("unit_from", "x"); ("unit_to", "c")]
    [ [("n", SInt 1)] ]
  = ([ [("n", SInt 1)] ], Raise KeyError).
Proof.
  eapply (X19_temperature_unknown_unit (A:=Q)
            (fun _ => Some 1%Q) (fun _ => "1.0000") (fun _ => "") (fun _ => 0)
            Missing
            [("category", "temperature"); ("amount", "1"); ("unit_from", "x");
             ("unit_to", "c")] [ [("n", SInt 1)] ] 1%Q).
  - reflexivity.
  - reflexivity.
  - reflexivity.
  - reflexivity.
  - left. reflexivity.
Defined.

Lemma X21_page_after_conversion_witness :
  exists ctx : context,
    do_POST (A:=Q) (fun _ => Some 1%Q) (fun _ => "1000.0000") (fun _ => "")
      (fun _ => 0) Missing
      [("category", "length"); ("amount", "1"); ("unit_from", "km"); ("unit_to", "m")]
      []
    = (fst (cap ([] ++ [[("from_val", SStr "1 Километры");
                         ("to_val", SStr "1000 Метры")]])%list),
       TemplateEngine.render (fun _ => 0) (fun _ => "") Missing ctx)
    /\ get ctx "history"
       = Some (VList (fst (cap ([] ++ [[("from_val", SStr "1 Километры");
                                        ("to_val", SStr "1000 Метры")]])%list)))
    /\ get ctx "explanation"
       = Some (vstr ("1 Километры" ++ " = " ++ "1000 Метры")).
Proof.
  apply (X21_page_after_conversion (A:=Q)
           (fun _ => Some 1%Q) (fun _ => "1000.0000") (fun _ => "") (fun _ => 0)
           Missing
           [("category", "length"); ("amount", "1"); ("unit_from", "km");
            ("unit_to", "m")] []).
  vm_compute. reflexivity.
Defined.

Lemma X23_do_POST_reaches_render_witness :
  exists (ctx : context) (h' : list record),
    do_POST (A:=Q) (fun _ => Some 1%Q) (fun _ => "33.8000") (fun _ => "")
      (fun _ => 0) Missing
      [("category", "temperature"); ("amount", "1"); ("unit_from", "c");
       ("unit_to", "f")] []
    = (h', TemplateEngine.render (fun _ => 0) (fun _ => "") Missing ctx)
    /\ get ctx "history" = Some (VList h').
Proof.
  apply (X23_do_POST_reaches_render (A:=Q)
           (fun _ => Some 1%Q) (fun _ => "33.8000") (fun _ => "") (fun _ => 0)
           Missing
           [("category", "temperature"); ("amount", "1"); ("unit_from", "c");
            ("unit_to", "f")] []).
  intros _ us E. injection E as <-. split; vm_compute; discriminate.
Defined.

End HandlerMore.
